(** * Navigation assembly of pulp-docs

    A shallow embedding of [pulp_docs/navigation.py] (class
    [AgregationUtils] and the generator [grouped_by_persona]) and of the
    [Repos] collection of [pulp_docs/repository.py].

    Python values built by the navigation code (strings, lists and
    insertion-ordered dicts) are modelled by [pyval]; dicts are association
    lists whose assignment keeps the position of an existing key, as
    CPython's dict does.  Raised exceptions are the [Err] branch of a small
    error monad.  The downloaded documentation tree ([tmpdir]) is a list of
    directories, each given by its path relative to [tmpdir] and the names
    of its immediate entries. *)

From Stdlib Require Import String Ascii List Bool Arith Lia.
From Stdlib Require Import Sorting.Sorted Sorting.Permutation.
Import ListNotations.
Open Scope string_scope.
Set Warnings "-register-all".

(** ** Python runtime fragments *)

Inductive py_error :=
| AttributeError (attr : string)
| KeyError (key : string)
| IndexError
| ValueError (msg : string)
| TypeError (msg : string).

Inductive result (A : Type) :=
| Ok (a : A)
| Err (e : py_error).
Arguments Ok {A} a.
Arguments Err {A} e.

Definition bind {A B} (c : result A) (k : A -> result B) : result B :=
  match c with Ok a => k a | Err e => Err e end.

Notation "x <- c ;; k" := (bind c (fun x => k))
  (at level 61, c at next level, right associativity).

(** Python objects produced by the navigation generators. *)
Inductive pyval :=
| PStr (s : string)
| PList (l : list pyval)
| PDict (d : list (string * pyval)).

(** [d[k] = v] on an insertion-ordered dict. *)
Fixpoint dict_set {V} (k : string) (v : V) (d : list (string * V))
  : list (string * V) :=
  match d with
  | [] => [(k, v)]
  | (k', v') :: t => if String.eqb k k' then (k', v) :: t else (k', v') :: dict_set k v t
  end.

(** [d.get(k)]. *)
Fixpoint dict_get {V} (k : string) (d : list (string * V)) : option V :=
  match d with
  | [] => None
  | (k', v') :: t => if String.eqb k k' then Some v' else dict_get k t
  end.

(** [s.startswith(p)] and [s.endswith(p)]. *)
Definition startswith (s p : string) : bool := String.prefix p s.

Definition endswith (s p : string) : bool :=
  let n := String.length s in
  let m := String.length p in
  Nat.leb m n && String.eqb (String.substring (n - m) m s) p.

(** [sorted(xs)] on a list of [str]: Python compares strings code point by
    code point, which on these (ASCII) strings is [String.leb].  Strings
    that compare equal are identical, so any sorting algorithm gives
    CPython's result; insertion sort is used here. *)
Fixpoint insert_sorted (x : string) (l : list string) : list string :=
  match l with
  | [] => [x]
  | h :: t => if String.leb x h then x :: h :: t else h :: insert_sorted x t
  end.

Fixpoint sorted (l : list string) : list string :=
  match l with
  | [] => []
  | h :: t => insert_sorted h (sorted t)
  end.

(** ** The documentation tree *)

(** A directory: its path relative to [tmpdir] (normalised, no leading or
    trailing slash) and the names of its immediate entries.  A path absent
    from the list is a directory that does not exist. *)
Definition filesystem := list (string * list string).

Definition listdir (fs : filesystem) (dir : string) : option (list string) :=
  dict_get dir fs.

(** [Path(dir).glob("*.md")]: the immediate entries whose name matches
    [*.md] (POSIX paths match case-sensitively); nothing when [dir] does
    not exist. *)
Definition glob_md (fs : filesystem) (dir : string) : list string :=
  match listdir fs dir with
  | None => []
  | Some entries => filter (fun name => endswith name ".md") entries
  end.

(** [str(file.relative_to(self.tmpdir))] for an entry [name] of [dir]. *)
Definition relative_to_tmpdir (dir name : string) : string := dir ++ "/" ++ name.

(** [AgregationUtils.get_children]. *)
Definition get_children (fs : filesystem) (path : string) : list string :=
  sorted
    (map (relative_to_tmpdir path)
       (filter (fun name => negb (startswith name "_")) (glob_md fs path))).

(** ** Repositories ([pulp_docs/repository.py]) *)

(** [Repo]; its mutable [status] record is only written by the download code
    and is not read by the navigation, so it is left out. *)
Record Repo := mkRepo {
  title : string;
  name : string;
  owner : string;
  branch : string;
  local_basepath : option string;
  repo_type : option string
}.

(** [Repo(title, name, type=...)] with the dataclass defaults. *)
Definition mk_repo (t n : string) (ty : option string) : Repo :=
  mkRepo t n "pulp" "main" None ty.

(** [Repos]. *)
Record Repos := mkRepos {
  core_repo : Repo;
  content_repos : list Repo;
  other_repos : list Repo
}.

(** [Repos.all]. *)
Definition all (rs : Repos) : list Repo :=
  ([core_repo rs] ++ content_repos rs ++ other_repos rs)%list.

(** Values returned by [getattr] on a [Repos] instance. *)
Inductive repos_attr :=
| AttrRepo (r : Repo)
| AttrRepoList (l : list Repo)
| AttrCallable (attr : string)   (* methods, classmethods, dunder methods *)
| AttrData (attr : string).      (* other class data such as [__dict__] *)

(** The attributes of a [Repos] instance besides its three fields and the
    [all] property: the methods of the class and what [@dataclass] and
    [object] provide. *)
Definition repos_callables : list string :=
  ["update_local_checkouts"; "from_yaml"; "test_fixtures";
   "__init__"; "__repr__"; "__eq__"; "__class__"; "__delattr__"; "__dir__";
   "__format__"; "__ge__"; "__getattribute__"; "__getstate__"; "__gt__";
   "__init_subclass__"; "__le__"; "__lt__"; "__ne__"; "__new__";
   "__reduce__"; "__reduce_ex__"; "__setattr__"; "__sizeof__"; "__str__";
   "__subclasshook__"].

Definition repos_data_attrs : list string :=
  ["__dataclass_fields__"; "__dataclass_params__"; "__match_args__";
   "__doc__"; "__module__"; "__dict__"; "__weakref__"; "__annotations__";
   "__hash__"].

(** [getattr(repos, attr)]. *)
Definition repos_getattr (rs : Repos) (attr : string) : result repos_attr :=
  if String.eqb attr "core_repo" then Ok (AttrRepo (core_repo rs))
  else if String.eqb attr "content_repos" then Ok (AttrRepoList (content_repos rs))
  else if String.eqb attr "other_repos" then Ok (AttrRepoList (other_repos rs))
  else if String.eqb attr "all" then Ok (AttrRepoList (all rs))
  else if existsb (String.eqb attr) repos_callables then Ok (AttrCallable attr)
  else if existsb (String.eqb attr) repos_data_attrs then Ok (AttrData attr)
  else Err (AttributeError attr).

(** [list.extend(x)] for the values [getattr] can return: a list of repos
    extends; the other values are not lists of repositories (a [Repo] and a
    method are not iterable; no data attribute ends in [_repos], the only
    names [repo_grouping] asks for). *)
Definition extend_with (acc : list Repo) (a : repos_attr) : result (list Repo) :=
  match a with
  | AttrRepoList l => Ok (acc ++ l)%list
  | AttrRepo _ => Err (TypeError "'Repo' object is not iterable")
  | AttrCallable _ => Err (TypeError "'method' object is not iterable")
  | AttrData attr => Err (TypeError attr)
  end.

(** ** [str.format] with keyword arguments *)

(** The replacement fields used by the navigation templates: [{{] and [}}]
    are literal braces, [{name}] is replaced by the keyword argument [name]
    ([KeyError] when absent), an empty or numeric field refers to a
    positional argument, of which there are none ([IndexError]).  Fields
    with attribute access, indexing, conversion or format spec are looked up
    by their whole text (the source's templates have none). *)
Inductive fmt_mode :=
| FNormal
| FOpen
| FField (acc : string)
| FClose.

Fixpoint all_digits (s : string) : bool :=
  match s with
  | EmptyString => true
  | String c t =>
      let n := Ascii.nat_of_ascii c in (Nat.leb 48 n && Nat.leb n 57) && all_digits t
  end.

Definition fmt_lookup (kwargs : list (string * string)) (field : string) : result string :=
  if all_digits field then Err IndexError
  else match dict_get field kwargs with
       | Some v => Ok v
       | None => Err (KeyError field)
       end.

Definition prepend (c : ascii) (r : result string) : result string :=
  s <- r;; Ok (String c s).

Fixpoint fmt_go (kwargs : list (string * string)) (mode : fmt_mode) (s : string)
  : result string :=
  match s with
  | EmptyString =>
      match mode with
      | FNormal => Ok ""
      | FOpen => Err (ValueError "Single '{' encountered in format string")
      | FField _ => Err (ValueError "expected '}' before end of string")
      | FClose => Err (ValueError "Single '}' encountered in format string")
      end
  | String c t =>
      match mode with
      | FNormal =>
          if Ascii.eqb c "{" then fmt_go kwargs FOpen t
          else if Ascii.eqb c "}" then fmt_go kwargs FClose t
          else prepend c (fmt_go kwargs FNormal t)
      | FOpen =>
          if Ascii.eqb c "{" then prepend "{" (fmt_go kwargs FNormal t)
          else if Ascii.eqb c "}" then Err IndexError
          else fmt_go kwargs (FField (String c "")) t
      | FField acc =>
          if Ascii.eqb c "}" then
            v <- fmt_lookup kwargs acc;;
            r <- fmt_go kwargs FNormal t;;
            Ok (v ++ r)
          else if Ascii.eqb c "{" then Err (ValueError "unexpected '{' in field name")
          else fmt_go kwargs (FField (acc ++ String c "")) t
      | FClose =>
          if Ascii.eqb c "}" then prepend "}" (fmt_go kwargs FNormal t)
          else Err (ValueError "Single '}' encountered in format string")
      end
  end.

(** [template.format(repo=..., ...)]. *)
Definition py_format (template : string) (kwargs : list (string * string)) : result string :=
  fmt_go kwargs FNormal template.

(** [sub in s] on strings. *)
Fixpoint str_contains (s sub : string) : bool :=
  String.prefix sub s ||
  match s with
  | EmptyString => false
  | String _ t => str_contains t sub
  end.

(** [s.lower()] (ASCII letters). *)
Definition lower_ascii (c : ascii) : ascii :=
  let n := Ascii.nat_of_ascii c in
  if Nat.leb 65 n && Nat.leb n 90 then Ascii.ascii_of_nat (n + 32) else c.

Fixpoint lower (s : string) : string :=
  match s with
  | EmptyString => EmptyString
  | String c t => String (lower_ascii c) (lower t)
  end.

(** [path.split("/")[-1]]: the text after the last slash. *)
Fixpoint last_segment_go (s cur : string) : string :=
  match s with
  | EmptyString => cur
  | String c t =>
      if Ascii.eqb c "/" then last_segment_go t "" else last_segment_go t (cur ++ String c "")
  end.

Definition last_segment (s : string) : string := last_segment_go s "".

(** ** [AgregationUtils] ([pulp_docs/navigation.py]) *)

Definition ADMIN_NAME : string := "admin".
Definition USER_NAME : string := "user".

Definition DISPLAY_NAMES : list (string * string) :=
  [("guides", "How-to"); ("learn", "Learn"); ("tutorials", "Tutorials");
   ("reference", "Reference")].

Definition is_quickstart_name (filename : string) : bool :=
  existsb (String.eqb (lower filename)) ["quickstart.md"; "quick-start.md"].

(** [AgregationUtils._pop_quickstart_from]: the path it returns and the list
    it leaves behind.  [pathlist.remove(path)] removes the first element
    equal to [path], which is the element being visited (the ones before it
    did not match, so they differ from it). *)
Fixpoint _pop_quickstart_from (pathlist : list string) : option string * list string :=
  match pathlist with
  | [] => (None, [])
  | path :: rest =>
      if is_quickstart_name (last_segment path) then (Some path, rest)
      else let (q, rest') := _pop_quickstart_from rest in (q, path :: rest')
  end.

Definition str_list (l : list string) : pyval := PList (map PStr l).

(** The keyword arguments of the two [template_str.format(...)] calls. *)
Definition format_kwargs (repo : Repo) : list (string * string) :=
  [("repo", name repo); ("admin", ADMIN_NAME); ("user", USER_NAME)].

Definition format_kwargs_content (repo : Repo) (content_type : string)
  : list (string * string) :=
  [("repo", name repo); ("admin", ADMIN_NAME); ("user", USER_NAME);
   ("content", content_type)].

(** [selected_repos.extend(getattr(self.repos, f"{repo_name}_repos"))] for
    every [repo_name] of [repo_types]. *)
Fixpoint extend_selected (rs : Repos) (acc : list Repo) (repo_types : list string)
  : result (list Repo) :=
  match repo_types with
  | [] => Ok acc
  | repo_name :: more =>
      a <- repos_getattr rs (repo_name ++ "_repos");;
      acc' <- extend_with acc a;;
      extend_selected rs acc' more
  end.

(** The repositories selected by [repo_types] ([None] is the default
    argument; an empty list is falsy as well). *)
Definition select_repos (rs : Repos) (repo_types : option (list string))
  : result (list Repo) :=
  match repo_types with
  | None | Some [] => Ok (all rs)
  | Some ts => extend_selected rs [] ts
  end.

(** [content_types or ["tutorials", "guides", "learn"]]. *)
Definition select_content (content_types : option (list string)) : list string :=
  match content_types with
  | None | Some [] => ["tutorials"; "guides"; "learn"]
  | Some cts => cts
  end.

(** The loop without content-type expansion. *)
Fixpoint group_simple (fs : filesystem) (template_str : string) (repos : list Repo)
  (nav : list (string * pyval)) : result (list (string * pyval)) :=
  match repos with
  | [] => Ok nav
  | repo :: more =>
      lookup_path <- py_format template_str (format_kwargs repo);;
      let _repo_content := get_children fs lookup_path in
      let nav' :=
        match _repo_content with
        | [] => nav
        | _ => dict_set (title repo) (str_list _repo_content) nav
        end in
      group_simple fs template_str more nav'
  end.

(** One iteration of the inner loop over content types: the dict of the
    repository before and after it. *)
Definition content_step (fs : filesystem) (template_str : string) (repo : Repo)
  (content_type : string) (inner : list (string * pyval))
  : result (list (string * pyval)) :=
  lookup_path <- py_format template_str (format_kwargs_content repo content_type);;
  let _repo_content := get_children fs lookup_path in
  let '(quickstart_file, _repo_content') := _pop_quickstart_from _repo_content in
  let inner1 :=
    match quickstart_file with
    | Some q =>
        if String.eqb (lower content_type) "tutorials" && negb (String.eqb q "")
        then dict_set "Quickstart" (PStr q) inner
        else inner
    | None => inner
    end in
  match _repo_content' with
  | [] => Ok inner1
  | _ =>
      match dict_get content_type DISPLAY_NAMES with
      | Some content_type_name => Ok (dict_set content_type_name (str_list _repo_content') inner1)
      | None => Err (KeyError content_type)
      end
  end.

Fixpoint content_loop (fs : filesystem) (template_str : string) (repo : Repo)
  (content_types : list string) (inner : list (string * pyval))
  : result (list (string * pyval)) :=
  match content_types with
  | [] => Ok inner
  | content_type :: more =>
      inner' <- content_step fs template_str repo content_type inner;;
      content_loop fs template_str repo more inner'
  end.

(** The loop with content-type expansion: [_nav[repo.title] = {}] and then
    the inner loop fills that dict. *)
Fixpoint group_expand (fs : filesystem) (template_str : string)
  (selected_content : list string) (repos : list Repo)
  (nav : list (string * pyval)) : result (list (string * pyval)) :=
  match repos with
  | [] => Ok nav
  | repo :: more =>
      let nav1 := dict_set (title repo) (PDict []) nav in
      inner <- content_loop fs template_str repo selected_content [];;
      group_expand fs template_str selected_content more
        (dict_set (title repo) (PDict inner) nav1)
  end.

(** [AgregationUtils.repo_grouping]. *)
Definition repo_grouping (fs : filesystem) (rs : Repos) (template_str : string)
  (repo_types content_types : option (list string)) : result pyval :=
  let _expand_content_types := str_contains template_str "{content}" in
  let selected_content := select_content content_types in
  selected_repos <- select_repos rs repo_types;;
  if negb _expand_content_types then
    nav <- group_simple fs template_str selected_repos [];; Ok (PDict nav)
  else
    nav <- group_expand fs template_str selected_content selected_repos [];; Ok (PDict nav).

(** The four sections the reference grouping emits for one repository. *)
Definition reference_section (fs : filesystem) (repo : Repo) : pyval :=
  let _repo_content := get_children fs (name repo ++ "/docs/reference") in
  PList [PDict [("REST API", PStr (name repo ++ "/docs/rest_api.md"))];
         PDict [("Readme", PStr (name repo ++ "/README.md"))];
         PDict [("Code API", str_list _repo_content)];
         PDict [("Changelog", PStr (name repo ++ "/CHANGELOG.md"))]].

Fixpoint reference_loop (fs : filesystem) (repos : list Repo) (nav : list (string * pyval))
  : list (string * pyval) :=
  match repos with
  | [] => nav
  | repo :: more => reference_loop fs more (dict_set (title repo) (reference_section fs repo) nav)
  end.

(** [AgregationUtils.repo_reference_grouping]. *)
Definition repo_reference_grouping (fs : filesystem) (rs : Repos) : pyval :=
  PDict (reference_loop fs (all rs) []).

(** [AgregationUtils.section_file]. *)
Definition section_file (section_and_filename : string) : string :=
  let basepath := "pulpcore/docs/sections" in
  basepath ++ "/" ++ section_and_filename.

(** [AgregationUtils.section_children]. *)
Definition section_children (fs : filesystem) (section_name : string) : list string :=
  let basepath := "pulpcore/docs/sections" in
  get_children fs (basepath ++ "/" ++ section_name).

(** ** [grouped_by_persona] *)

(** A one-entry dict literal [{key: value}]. *)
Definition dict1 (key : string) (value : pyval) : pyval := PDict [(key, value)].

(** [grouped_by_persona(tmpdir, repos)], the active navigation generator. *)
Definition grouped_by_persona (fs : filesystem) (rs : Repos) : result pyval :=
  let help_section :=
    PList [dict1 "Overview" (PStr (section_file "help/index.md"));
           dict1 "Bugs, Feature and Backport Requests"
             (PStr (section_file "help/bugs-features.md"))] in
  usage_plugins <- repo_grouping fs rs "{repo}/docs/user/{content}" (Some ["content"]) None;;
  usage_extras <- repo_grouping fs rs "{repo}/docs/user/{content}" (Some ["other"]) None;;
  let usage_section :=
    PList [dict1 "Overview" (PStr (section_file "usage/index.md"));
           dict1 "Getting Started"
             (PDict [("Tutorial", str_list (get_children fs "pulpcore/docs/user/tutorials"));
                     ("Learn", str_list (get_children fs "pulpcore/docs/user/learn"));
                     ("How-to", str_list (get_children fs "pulpcore/docs/user/guides"))]);
           dict1 "Plugins" usage_plugins;
           dict1 "Extras" usage_extras] in
  admin_plugins <- repo_grouping fs rs "{repo}/docs/admin/{content}" (Some ["content"]) None;;
  admin_extras <- repo_grouping fs rs "{repo}/docs/admin/{content}" (Some ["other"]) None;;
  let admin_section :=
    PList [dict1 "Overview" (PStr (section_file "admin/index.md"));
           dict1 "Getting Started"
             (PDict [("Tutorial", str_list (get_children fs "pulpcore/docs/admin/tutorials"));
                     ("Learn", str_list (get_children fs "pulpcore/docs/admin/learn"));
                     ("How-to", str_list (get_children fs "pulpcore/docs/admin/guides"))]);
           dict1 "Plugins" admin_plugins;
           dict1 "Extras" admin_extras] in
  let reference_section :=
    PList [dict1 "Overview" (PStr (section_file "reference/index.md"));
           dict1 "Repository Map" (PStr (section_file "reference/01-repository-map.md"));
           dict1 "Glossary" (PStr (section_file "reference/02-glossary.md"));
           dict1 "Repositories" (repo_reference_grouping fs rs)] in
  dev_plugins <- repo_grouping fs rs "{repo}/docs/dev/{content}" (Some ["content"]) None;;
  dev_extras <- repo_grouping fs rs "{repo}/docs/dev/{content}" (Some ["other"]) None;;
  let development_section :=
    PList [dict1 "Overview" (PStr (section_file "development/index.md"));
           dict1 "Getting Started"
             (PDict [("Tutorial", str_list (get_children fs "pulpcore/docs/dev/tutorials"));
                     ("Learn", str_list (get_children fs "pulpcore/docs/dev/learn"));
                     ("How-to", str_list (get_children fs "pulpcore/docs/dev/guides"))]);
           dict1 "Plugins" dev_plugins;
           dict1 "Extras" dev_extras] in
  Ok (PList [dict1 "Home" (PStr "index.md");
             dict1 "User Manual" usage_section;
             dict1 "Admin Manual" admin_section;
             dict1 "Development" development_section;
             dict1 "Reference" reference_section;
             dict1 "Help" help_section]).

(** ** [Repos.from_yaml] *)

(** A repository entry of [repolist.yml]: the mapping passed as keyword
    arguments to [Repo] with the entry unpacked as keyword arguments. *)
Definition yaml_entry := list (string * string).

Definition repo_kwarg_names : list string :=
  ["title"; "name"; "owner"; "branch"; "local_basepath"; "status"].

(** [Repo] called with the keys of [entry] and [type=ty]: the dataclass constructor rejects unknown
    keywords, a second [type] and missing [title] or [name]. *)
Definition repo_of_entry (entry : yaml_entry) (ty : string) : result Repo :=
  match find (fun kv => negb (existsb (String.eqb (fst kv)) repo_kwarg_names)) entry with
  | Some (k, _) =>
      if String.eqb k "type" then Err (TypeError "got multiple values for argument 'type'")
      else Err (TypeError ("unexpected keyword argument " ++ k))
  | None =>
      match dict_get "title" entry, dict_get "name" entry with
      | Some t, Some n =>
          Ok (mkRepo t n
                (match dict_get "owner" entry with Some o => o | None => "pulp" end)
                (match dict_get "branch" entry with Some b => b | None => "main" end)
                (dict_get "local_basepath" entry)
                (Some ty))
      | None, _ => Err (TypeError "missing required argument: 'title'")
      | Some _, None => Err (TypeError "missing required argument: 'name'")
      end
  end.

(** The list comprehension building one [Repo] per entry. *)
Fixpoint repos_of_entries (entries : list yaml_entry) (ty : string) : result (list Repo) :=
  match entries with
  | [] => Ok []
  | e :: more => r <- repo_of_entry e ty;; rs <- repos_of_entries more ty;; Ok (r :: rs)
  end.

(** [Repos.from_yaml] after the file has been read: [repos] is
    [data["repos"]], mapping each of [core], [content] and [other] to its
    list of entries. *)
Definition from_yaml_data (repos : list (string * list yaml_entry)) : result Repos :=
  core_entries <- match dict_get "core" repos with
                  | Some l => Ok l | None => Err (KeyError "core") end;;
  core_entry <- match core_entries with
                | e :: _ => Ok e | [] => Err IndexError end;;
  core_repo <- repo_of_entry core_entry "core";;
  content_entries <- match dict_get "content" repos with
                     | Some l => Ok l | None => Err (KeyError "content") end;;
  content_repos <- repos_of_entries content_entries "content";;
  other_entries <- match dict_get "other" repos with
                   | Some l => Ok l | None => Err (KeyError "other") end;;
  other_repos <- repos_of_entries other_entries "other";;
  Ok (mkRepos core_repo content_repos other_repos).

(** ** [Repos.update_local_checkouts] *)

(** [RepoStatus] with the attributes its constructor sets. *)
Record RepoStatus := mkRepoStatus {
  download_source : option string;
  use_local_checkout : bool;
  has_readme : bool;
  has_changelog : bool;
  has_staging_docs : bool;
  using_cache : bool;
  original_refs : option string
}.

(** [RepoStatus()]. *)
Definition default_status : RepoStatus :=
  mkRepoStatus None false true true true false None.

(** A [Repo] object: its fields and its [status] object.  Each repository of
    a [Repos] is a distinct object (as [from_yaml] creates them), so the
    objects can be updated one position at a time. *)
Definition repo_obj : Type := (Repo * RepoStatus)%type.

Record RepoObjs := mkRepoObjs {
  obj_core : repo_obj;
  obj_content : list repo_obj;
  obj_other : list repo_obj
}.

(** [self.all] on the objects. *)
Definition obj_all (rs : RepoObjs) : list repo_obj :=
  (obj_core rs :: obj_content rs ++ obj_other rs)%list.

(** The parent of the working directory: its path, and for each directory
    it contains (named as the repositories are, by a plain directory name)
    the text of its [.git/HEAD], [None] when that file does not exist. *)
Record checkout_env := mkCheckoutEnv {
  parent_dir : string;
  checkouts : list (string * option string)
}.

Inductive os_error :=
| FileNotFoundError (path : string).

(** [s[n:]] on a string. *)
Definition py_slice_from (n : nat) (s : string) : string :=
  substring n (String.length s - n) s.

(** [s.replace("\n", "")]. *)
Fixpoint remove_newlines (s : string) : string :=
  match s with
  | EmptyString => EmptyString
  | String c t => if Ascii.eqb c "010"%char then remove_newlines t else String c (remove_newlines t)
  end.

(** [checkout_refs[len("ref: "):].replace("\n", "")]. *)
Definition parse_head (checkout_refs : string) : string :=
  remove_newlines (py_slice_from (String.length "ref: ") checkout_refs).

(** One iteration of the loop of [update_local_checkouts]: the object after
    it, and the exception the iteration raised, if any.  The status flag
    and [local_basepath] are assigned before [.git/HEAD] is read. *)
Definition update_repo (env : checkout_env) (obj : repo_obj) : repo_obj * option os_error :=
  let '(repo, st) := obj in
  let checkout_dir := parent_dir env ++ "/" ++ name repo in
  match local_basepath repo, dict_get (name repo) (checkouts env) with
  | None, Some head =>
      let st1 := mkRepoStatus (download_source st) true (has_readme st) (has_changelog st)
                   (has_staging_docs st) (using_cache st) (original_refs st) in
      let repo1 := mkRepo (title repo) (name repo) (owner repo) (branch repo)
                     (Some (parent_dir env)) (repo_type repo) in
      match head with
      | None => ((repo1, st1), Some (FileNotFoundError (checkout_dir ++ "/.git/HEAD")))
      | Some text =>
          let checkout_refs := parse_head text in
          let st2 := mkRepoStatus (download_source st1) (use_local_checkout st1)
                       (has_readme st1) (has_changelog st1) (has_staging_docs st1)
                       (using_cache st1) (Some (branch repo1)) in
          ((mkRepo (title repo1) (name repo1) (owner repo1) checkout_refs
              (local_basepath repo1) (repo_type repo1), st2), None)
      end
  | _, _ => (obj, None)
  end.

(** The loop over a list of objects, stopping at the first exception. *)
Fixpoint update_list (env : checkout_env) (objs : list repo_obj)
  : list repo_obj * option os_error :=
  match objs with
  | [] => ([], None)
  | o :: more =>
      let '(o', err) := update_repo env o in
      match err with
      | Some e => ((o' :: more)%list, Some e)
      | None => let '(more', err') := update_list env more in ((o' :: more')%list, err')
      end
  end.

(** [Repos.update_local_checkouts]: the loop over [self.all], whose objects
    are those of the three fields. *)
Definition update_local_checkouts (env : checkout_env) (rs : RepoObjs)
  : RepoObjs * option os_error :=
  let '(c, e1) := update_repo env (obj_core rs) in
  match e1 with
  | Some e => (mkRepoObjs c (obj_content rs) (obj_other rs), Some e)
  | None =>
      let '(ct, e2) := update_list env (obj_content rs) in
      match e2 with
      | Some e => (mkRepoObjs c ct (obj_other rs), Some e)
      | None => let '(ot, e3) := update_list env (obj_other rs) in (mkRepoObjs c ct ot, e3)
      end
  end.

(** The [Repos] seen by the navigation code after the objects were updated. *)
Definition objs_repos (rs : RepoObjs) : Repos :=
  mkRepos (fst (obj_core rs)) (map fst (obj_content rs)) (map fst (obj_other rs)).

(** A repository reduced to its title and name. *)
Definition forget (r : Repo) : Repo := mk_repo (title r) (name r) None.

Definition forget_repos (rs : Repos) : Repos :=
  mkRepos (forget (core_repo rs)) (map forget (content_repos rs)) (map forget (other_repos rs)).

(** * Properties *)

(** ** Sorting and strings *)

Definition str_le (a b : string) : Prop := String.leb a b = true.

Lemma insert_sorted_perm x l : Permutation (insert_sorted x l) (x :: l).
Proof.
  induction l as [|h t IH]; simpl; [reflexivity|].
  destruct (String.leb x h); [reflexivity|].
  rewrite IH. apply perm_swap.
Qed.

Lemma sorted_perm l : Permutation (sorted l) l.
Proof.
  induction l as [|h t IH]; simpl; [reflexivity|].
  rewrite insert_sorted_perm. now apply perm_skip.
Qed.

Lemma insert_sorted_Sorted x l : Sorted str_le l -> Sorted str_le (insert_sorted x l).
Proof.
  induction 1 as [|h t Ht IH Hhd]; simpl.
  - repeat constructor.
  - destruct (String.leb x h) eqn:Exh.
    + constructor; [constructor; assumption | constructor; exact Exh].
    + assert (Hhx : str_le h x).
      { destruct (String.leb_total x h); [congruence | assumption]. }
      constructor; [exact IH|].
      destruct t as [|h' t']; simpl.
      * constructor; exact Hhx.
      * inversion Hhd; subst.
        destruct (String.leb x h'); constructor; assumption.
Qed.

Lemma sorted_Sorted l : Sorted str_le (sorted l).
Proof.
  induction l; simpl; [constructor | now apply insert_sorted_Sorted].
Qed.

Lemma string_app_cancel_l d n m : d ++ n = d ++ m -> n = m.
Proof.
  induction d as [|c d IH]; simpl; [auto|].
  intros H; injection H; auto.
Qed.

Lemma string_length_app s t : String.length (s ++ t) = String.length s + String.length t.
Proof. induction s; simpl; auto. Qed.

Lemma substring_app_l s t : String.substring 0 (String.length s) (s ++ t) = s.
Proof. induction s; simpl; [now destruct t | now f_equal]. Qed.

Lemma substring_app_r s t : String.substring (String.length s) (String.length t) (s ++ t) = t.
Proof.
  induction s; simpl; [|assumption].
  induction t; simpl; [reflexivity | now f_equal].
Qed.

Lemma string_app_cancel_r s1 s2 p : s1 ++ p = s2 ++ p -> s1 = s2.
Proof.
  intros H.
  assert (Hl : String.length s1 = String.length s2).
  { apply (f_equal String.length) in H. rewrite !string_length_app in H. lia. }
  rewrite <- (substring_app_l s1 p), <- (substring_app_l s2 p), H, Hl. reflexivity.
Qed.

Lemma endswith_app t p : endswith (t ++ p) p = true.
Proof.
  unfold endswith. rewrite string_length_app.
  replace (String.length t + String.length p - String.length p) with (String.length t) by lia.
  rewrite substring_app_r, String.eqb_refl, andb_true_r.
  apply Nat.leb_le. lia.
Qed.

(** ** Discovery *)

Definition keep_md (n : string) : bool := endswith n ".md" && negb (startswith n "_").

Lemma get_children_entries fs d entries :
  listdir fs d = Some entries ->
  get_children fs d =
  sorted (map (relative_to_tmpdir d) (filter keep_md entries)).
Proof.
  intros H. unfold get_children, glob_md. rewrite H. f_equal. f_equal.
  unfold keep_md. clear H. induction entries as [|e es IH]; simpl; [reflexivity|].
  destruct (endswith e ".md"); simpl; [|exact IH].
  destruct (negb (startswith e "_")); simpl; [f_equal|]; exact IH.
Qed.

Lemma get_children_missing fs d : listdir fs d = None -> get_children fs d = [].
Proof. intros H. unfold get_children, glob_md. now rewrite H. Qed.

(** C6: [get_children] on a directory that does not exist is empty; on an
    existing one it returns exactly (with multiplicity) the immediate entries
    named [*.md] whose name does not start with an underscore, as paths
    relative to [tmpdir], sorted ascending by code point; an underscore file
    never appears. *)
Theorem get_children_discovery fs d :
  (listdir fs d = None -> get_children fs d = []) /\
  (forall entries, listdir fs d = Some entries ->
     Permutation (get_children fs d) (map (relative_to_tmpdir d) (filter keep_md entries))) /\
  (forall x, In x (get_children fs d) <->
     exists n entries, listdir fs d = Some entries /\ In n entries /\
       endswith n ".md" = true /\ startswith n "_" = false /\ x = d ++ "/" ++ n) /\
  Sorted str_le (get_children fs d) /\
  (forall n, startswith n "_" = true -> ~ In (d ++ "/" ++ n) (get_children fs d)).
Proof.
  assert (Hmem : forall x, In x (get_children fs d) <->
     exists n entries, listdir fs d = Some entries /\ In n entries /\
       endswith n ".md" = true /\ startswith n "_" = false /\ x = d ++ "/" ++ n).
  { intros x. destruct (listdir fs d) as [es|] eqn:E.
    - rewrite (get_children_entries fs d es E). split.
      + intros Hin. apply (Permutation_in _ (sorted_perm _)) in Hin.
        apply in_map_iff in Hin as [n [Hx Hn]]. apply filter_In in Hn as [Hn Hk].
        unfold keep_md in Hk. apply andb_prop in Hk as [H1 H2].
        apply negb_true_iff in H2.
        exists n, es. repeat split; auto.
      + intros [n [es' [Hes [Hn [H1 [H2 Hx]]]]]]. injection Hes as <-.
        apply (Permutation_in _ (Permutation_sym (sorted_perm _))).
        apply in_map_iff. exists n. split; [symmetry; exact Hx|].
        apply filter_In. split; [exact Hn|]. unfold keep_md. now rewrite H1, H2.
    - rewrite (get_children_missing fs d E). split; [intros []|].
      intros [n [es' [Hes _]]]. discriminate. }
  split; [apply get_children_missing|].
  split.
  { intros es E. rewrite (get_children_entries fs d es E). apply sorted_perm. }
  split; [exact Hmem|].
  split.
  { unfold get_children. apply sorted_Sorted. }
  intros n Hn Hin. apply Hmem in Hin as [n' [es [_ [_ [_ [H2 Hx]]]]]].
  apply string_app_cancel_l in Hx. injection Hx as <-. congruence.
Qed.

Definition fs_sort_example : filesystem :=
  [("docs/user/guides", ["b.md"; "a.md"; "_draft.md"; "c.md"; "notes.txt"])].

Lemma get_children_discovery_witness :
  get_children fs_sort_example "docs/user/guides" =
    ["docs/user/guides/a.md"; "docs/user/guides/b.md"; "docs/user/guides/c.md"] /\
  ~ In "docs/user/guides/_draft.md" (get_children fs_sort_example "docs/user/guides") /\
  get_children fs_sort_example "docs/user/learn" = [].
Proof.
  split; [reflexivity|]. split.
  - exact (proj2 (proj2 (proj2 (proj2 (get_children_discovery fs_sort_example
             "docs/user/guides")))) "_draft.md" eq_refl).
  - apply (proj1 (get_children_discovery fs_sort_example "docs/user/learn")).
    reflexivity.
Defined.

(** ** Concrete repositories and trees *)

Definition repo_core : Repo := mk_repo "Pulp Core" "pulpcore" (Some "core").
Definition repo_pkg_a : Repo := mk_repo "Pkg A" "pkg_a" (Some "content").
Definition repos_core_pkg_a : Repos := mkRepos repo_core [repo_pkg_a] [].

(** [pkg_a] has a user guide and no admin documentation at all. *)
Definition fs_pkg_a_user_only : filesystem :=
  [("pulpcore/docs/user/tutorials", ["quickstart.md"]);
   ("pkg_a/docs/user/guides", ["x.md"])].

(** C1 (code bug): with content-type expansion a repository with no file
    under any requested content type is still a key of the result, mapped
    to an empty dict; the path without expansion drops such a repository. *)
Theorem repo_grouping_keeps_empty_repo :
  repo_grouping fs_pkg_a_user_only repos_core_pkg_a "{repo}/docs/admin/{content}"
    (Some ["content"]) (Some ["guides"]) = Ok (PDict [("Pkg A", PDict [])]) /\
  repo_grouping fs_pkg_a_user_only repos_core_pkg_a "{repo}/docs/admin/guides"
    (Some ["content"]) None = Ok (PDict []).
Proof. split; vm_compute; reflexivity. Qed.

(** [pkg_a] keeps a how-to guide named [quickstart.md]. *)
Definition fs_guides_quickstart : filesystem :=
  [("pkg_a/docs/user/guides", ["quickstart.md"; "x.md"])].

(** C3 (code bug): [_pop_quickstart_from] runs for every content type, so a
    [quickstart.md] discovered under [guides] is removed from the How-to
    list and recorded nowhere. *)
Theorem repo_grouping_drops_guides_quickstart :
  get_children fs_guides_quickstart "pkg_a/docs/user/guides" =
    ["pkg_a/docs/user/guides/quickstart.md"; "pkg_a/docs/user/guides/x.md"] /\
  repo_grouping fs_guides_quickstart repos_core_pkg_a "{repo}/docs/user/{content}"
    (Some ["content"]) (Some ["guides"]) =
    Ok (PDict [("Pkg A", PDict [("How-to", PList [PStr "pkg_a/docs/user/guides/x.md"])])]).
Proof. split; vm_compute; reflexivity. Qed.

(** C9: [Repos.all] is the core repository, then the content repositories,
    then the other repositories, each in its given order. *)
Theorem all_order rs :
  all rs = core_repo rs :: content_repos rs ++ other_repos rs /\
  hd_error (all rs) = Some (core_repo rs) /\
  firstn (length (content_repos rs)) (tl (all rs)) = content_repos rs /\
  skipn (S (length (content_repos rs))) (all rs) = other_repos rs.
Proof.
  unfold all. simpl. split; [reflexivity|]. split; [reflexivity|].
  split.
  - rewrite firstn_app, firstn_all, Nat.sub_diag. simpl. apply app_nil_r.
  - simpl. rewrite skipn_app, skipn_all, Nat.sub_diag. reflexivity.
Qed.

(** ** Selecting repositories by type *)

Definition repo_type_ok (x : string) : Prop := x = "content" \/ x = "other".

Definition repos_of_type (rs : Repos) (x : string) : list Repo :=
  if String.eqb x "content" then content_repos rs else other_repos rs.

Lemma eqb_repos_suffix t s :
  endswith s "_repos" = false -> String.eqb (t ++ "_repos") s = false.
Proof.
  intros H. destruct (String.eqb (t ++ "_repos") s) eqn:E; [|reflexivity].
  apply String.eqb_eq in E. subst s. now rewrite endswith_app in H.
Qed.

Lemma existsb_repos_suffix t l :
  forallb (fun s => negb (endswith s "_repos")) l = true ->
  existsb (String.eqb (t ++ "_repos")) l = false.
Proof.
  induction l as [|s l IH]; simpl; [reflexivity|].
  intros H. apply andb_prop in H as [H1 H2]. apply negb_true_iff in H1.
  now rewrite (eqb_repos_suffix t s H1), IH.
Qed.

Lemma repos_getattr_missing rs t :
  t <> "content" -> t <> "other" ->
  repos_getattr rs (t ++ "_repos") = Err (AttributeError (t ++ "_repos")).
Proof.
  intros Hc Ho. unfold repos_getattr.
  rewrite (eqb_repos_suffix t "core_repo") by reflexivity.
  destruct (String.eqb (t ++ "_repos") "content_repos") eqn:E1.
  { apply String.eqb_eq in E1. change "content_repos" with ("content" ++ "_repos") in E1.
    apply string_app_cancel_r in E1. contradiction. }
  destruct (String.eqb (t ++ "_repos") "other_repos") eqn:E2.
  { apply String.eqb_eq in E2. change "other_repos" with ("other" ++ "_repos") in E2.
    apply string_app_cancel_r in E2. contradiction. }
  rewrite (eqb_repos_suffix t "all") by reflexivity.
  rewrite !existsb_repos_suffix by reflexivity.
  reflexivity.
Qed.

Lemma extend_selected_ok rs acc ts :
  Forall repo_type_ok ts ->
  extend_selected rs acc ts = Ok (acc ++ concat (map (repos_of_type rs) ts))%list.
Proof.
  intros H. revert acc. induction H as [|x ts Hx Hts IH]; intros acc; simpl.
  - now rewrite app_nil_r.
  - unfold repos_of_type at 1.
    destruct Hx as [-> | ->]; simpl; rewrite IH; now rewrite app_assoc.
Qed.

Lemma extend_selected_missing rs acc pre t post :
  Forall repo_type_ok pre -> t <> "content" -> t <> "other" ->
  extend_selected rs acc ((pre ++ t :: post)%list) = Err (AttributeError (t ++ "_repos")).
Proof.
  intros H Hc Ho. revert acc. induction H as [|x pre Hx Hpre IH]; intros acc; simpl.
  - now rewrite repos_getattr_missing.
  - destruct Hx as [-> | ->]; simpl; apply IH.
Qed.

(** C10: [repo_grouping] looks up the attribute [<entry>_repos] of [Repos]
    for each entry of [repo_types]; when every entry is [content] or
    [other] the lookup succeeds and selects those lists in order, and at the
    first other entry (among them [core], whose field is [core_repo]) the
    call raises [AttributeError]. *)
Theorem repo_grouping_repo_types fs rs template_str content_types :
  (forall ts, Forall repo_type_ok ts ->
     select_repos rs (Some ts) =
       Ok (match ts with [] => all rs | _ => concat (map (repos_of_type rs) ts) end)) /\
  (forall pre t post, Forall repo_type_ok pre -> t <> "content" -> t <> "other" ->
     repo_grouping fs rs template_str (Some ((pre ++ t :: post)%list)) content_types =
       Err (AttributeError (t ++ "_repos"))) /\
  repo_grouping fs rs template_str (Some ["core"]) content_types =
    Err (AttributeError "core_repos").
Proof.
  assert (Hmiss : forall pre t post, Forall repo_type_ok pre -> t <> "content" ->
     t <> "other" ->
     repo_grouping fs rs template_str (Some ((pre ++ t :: post)%list)) content_types =
       Err (AttributeError (t ++ "_repos"))).
  { intros pre t post H Hc Ho. unfold repo_grouping, select_repos.
    destruct ((pre ++ t :: post)%list) as [|y ys] eqn:E; [now destruct pre|].
    rewrite <- E, extend_selected_missing by assumption. reflexivity. }
  split; [|split].
  - intros ts H. destruct ts as [|x ts]; [reflexivity|].
    unfold select_repos. now rewrite extend_selected_ok.
  - exact Hmiss.
  - apply (Hmiss [] "core" []); [constructor | discriminate | discriminate].
Qed.

Lemma repo_grouping_repo_types_witness :
  select_repos repos_core_pkg_a (Some ["content"; "other"]) = Ok [repo_pkg_a] /\
  repo_grouping [] repos_core_pkg_a "{repo}/docs/user/guides" (Some ["content"; "core"]) None =
    Err (AttributeError "core_repos").
Proof.
  split.
  - apply (proj1 (repo_grouping_repo_types [] repos_core_pkg_a "{repo}/docs/user/guides" None)).
    constructor; [left; reflexivity|]. constructor; [right; reflexivity|]. constructor.
  - apply (proj1 (proj2 (repo_grouping_repo_types [] repos_core_pkg_a
             "{repo}/docs/user/guides" None)) ["content"] "core" []);
      [constructor; [left; reflexivity | constructor] | discriminate | discriminate].
Defined.

(** ** Template and content types *)

(** C4 (corrected): [repo_grouping] never checks the template against the
    content types: without [{content}] in the template the content types
    are ignored, and with it an absent (or empty) list of content types
    falls back to tutorials, guides and learn. *)
Theorem repo_grouping_content_types_unchecked fs rs template_str repo_types :
  (str_contains template_str "{content}" = false ->
   forall cts1 cts2,
     repo_grouping fs rs template_str repo_types cts1 =
     repo_grouping fs rs template_str repo_types cts2) /\
  repo_grouping fs rs template_str repo_types None =
    repo_grouping fs rs template_str repo_types (Some ["tutorials"; "guides"; "learn"]) /\
  repo_grouping fs rs template_str repo_types (Some []) =
    repo_grouping fs rs template_str repo_types (Some ["tutorials"; "guides"; "learn"]).
Proof.
  split; [|split; reflexivity].
  intros H cts1 cts2. unfold repo_grouping. rewrite H. reflexivity.
Qed.

Lemma repo_grouping_content_types_unchecked_witness :
  repo_grouping fs_pkg_a_user_only repos_core_pkg_a "{repo}/docs/user/guides"
    (Some ["content"]) (Some ["learn"]) =
  repo_grouping fs_pkg_a_user_only repos_core_pkg_a "{repo}/docs/user/guides"
    (Some ["content"]) None.
Proof.
  apply (proj1 (repo_grouping_content_types_unchecked fs_pkg_a_user_only repos_core_pkg_a
           "{repo}/docs/user/guides" (Some ["content"]))).
  reflexivity.
Defined.

(** C4: neither inconsistency raises: a [{content}] template without
    content types and content types with a template lacking [{content}]
    both return a navigation dict. *)
Lemma repo_grouping_mismatch_no_error :
  repo_grouping fs_pkg_a_user_only repos_core_pkg_a "{repo}/docs/user/{content}"
    (Some ["content"]) None =
    Ok (PDict [("Pkg A", PDict [("How-to", PList [PStr "pkg_a/docs/user/guides/x.md"])])]) /\
  repo_grouping fs_pkg_a_user_only repos_core_pkg_a "{repo}/docs/user/guides"
    (Some ["content"]) (Some ["learn"]) =
    Ok (PDict [("Pkg A", PList [PStr "pkg_a/docs/user/guides/x.md"])]).
Proof. split; vm_compute; reflexivity. Qed.

(** ** Navigation lookup *)

(** The value under [key] in a list of one-entry dicts such as a section. *)
Fixpoint list_entry (key : string) (l : list pyval) : option pyval :=
  match l with
  | [] => None
  | PDict d :: more =>
      match dict_get key d with Some v => Some v | None => list_entry key more end
  | _ :: more => list_entry key more
  end.

(** Follow a path of titles through nested dicts and sections. *)
Fixpoint nav_lookup (keys : list string) (v : pyval) : option pyval :=
  match keys with
  | [] => Some v
  | k :: ks =>
      match v with
      | PDict d => match dict_get k d with Some v' => nav_lookup ks v' | None => None end
      | PList l => match list_entry k l with Some v' => nav_lookup ks v' | None => None end
      | PStr _ => None
      end
  end.

(** The Getting-Started dict of a persona, read from the [pulpcore] tree. *)
Definition pulpcore_getting_started (fs : filesystem) (persona : string) : pyval :=
  PDict [("Tutorial", str_list (get_children fs ("pulpcore/docs/" ++ persona ++ "/tutorials")));
         ("Learn", str_list (get_children fs ("pulpcore/docs/" ++ persona ++ "/learn")));
         ("How-to", str_list (get_children fs ("pulpcore/docs/" ++ persona ++ "/guides")))].

Definition persona_labels : list (string * string) :=
  [("User Manual", "user"); ("Admin Manual", "admin"); ("Development", "dev")].

(** C5 (corrected): the fixed roots are the literal directory [pulpcore],
    whatever the core repository is called: [section_file] and
    [section_children] use [pulpcore/docs/sections], and every persona's
    Getting Started is discovered under [pulpcore/docs/<persona>]. *)
Theorem fixed_root_is_pulpcore :
  (forall s, section_file s = "pulpcore/docs/sections/" ++ s) /\
  (forall fs s, section_children fs s = get_children fs ("pulpcore/docs/sections/" ++ s)) /\
  (forall fs rs nav, grouped_by_persona fs rs = Ok nav ->
     forall label persona, In (label, persona) persona_labels ->
     nav_lookup [label; "Getting Started"] nav = Some (pulpcore_getting_started fs persona)).
Proof.
  split; [reflexivity|]. split; [reflexivity|].
  intros fs rs nav H label persona Hin.
  unfold grouped_by_persona in H.
  repeat match type of H with
         | context [repo_grouping ?a ?b ?c ?d ?e] =>
             destruct (repo_grouping a b c d e); simpl in H; [|discriminate]
         end.
  injection H as <-.
  simpl in Hin. destruct Hin as [E|[E|[E|[]]]]; injection E as <- <-; reflexivity.
Qed.

Lemma fixed_root_is_pulpcore_witness :
  nav_lookup ["User Manual"; "Getting Started"]
    (match grouped_by_persona fs_pkg_a_user_only repos_core_pkg_a with
     | Ok nav => nav | Err _ => PList [] end) =
  Some (PDict [("Tutorial", PList [PStr "pulpcore/docs/user/tutorials/quickstart.md"]);
               ("Learn", PList []); ("How-to", PList [])]).
Proof.
  destruct (grouped_by_persona fs_pkg_a_user_only repos_core_pkg_a) eqn:E;
    [|vm_compute in E; discriminate].
  apply (proj2 (proj2 fixed_root_is_pulpcore) _ _ _ E "User Manual" "user").
  left; reflexivity.
Defined.

(** The end-to-end scenario with the core repository called [core]. *)
Definition repos_named_core : Repos :=
  mkRepos (mk_repo "Pulp Core" "core" (Some "core")) [repo_pkg_a] [].

Definition fs_named_core : filesystem :=
  [("core/docs/user/tutorials", ["quickstart.md"]); ("pkg_a/docs/user/guides", ["x.md"])].

(** C5: with a core repository named [core] the section files do not lie
    under [core/docs/sections] and its tutorial is missing from Getting
    Started. *)
Lemma fixed_root_not_primary :
  section_file "help/index.md" <>
    name (core_repo repos_named_core) ++ "/docs/sections/help/index.md" /\
  exists nav, grouped_by_persona fs_named_core repos_named_core = Ok nav /\
    nav_lookup ["User Manual"; "Getting Started"; "Tutorial"] nav = Some (PList []).
Proof.
  split; [discriminate|].
  eexists; split; [vm_compute; reflexivity | vm_compute; reflexivity].
Qed.

(** ** Dict assignment *)

Section DictLemmas.
Context {V : Type}.

Lemma dict_get_set_same (k : string) (v : V) d : dict_get k (dict_set k v d) = Some v.
Proof.
  induction d as [|[k' v'] t IH]; simpl.
  - now rewrite String.eqb_refl.
  - destruct (String.eqb k k') eqn:E; simpl; rewrite ?E; auto.
Qed.

Lemma dict_get_set_other (k k' : string) (v : V) d :
  k <> k' -> dict_get k (dict_set k' v d) = dict_get k d.
Proof.
  intros Hne. induction d as [|[k0 v0] t IH]; simpl.
  - destruct (String.eqb k k') eqn:E; [apply String.eqb_eq in E; congruence | reflexivity].
  - destruct (String.eqb k' k0) eqn:E0; simpl.
    + apply String.eqb_eq in E0; subst k0.
      destruct (String.eqb k k') eqn:E; [apply String.eqb_eq in E; congruence | reflexivity].
    + rewrite IH. reflexivity.
Qed.

Lemma dict_set_In (k k' : string) (v v' : V) d :
  In (k, v) (dict_set k' v' d) -> In (k, v) d \/ v = v'.
Proof.
  induction d as [|[k0 v0] t IH]; simpl.
  - intros [E|[]]. injection E; auto.
  - destruct (String.eqb k' k0); simpl.
    + intros [E|H]; [injection E; auto | auto].
    + intros [E|H]; [auto | destruct (IH H); auto].
Qed.

End DictLemmas.

(** ** Reference grouping *)

Lemma reference_loop_app fs l1 l2 nav :
  reference_loop fs (l1 ++ l2) nav = reference_loop fs l2 (reference_loop fs l1 nav).
Proof. revert nav. induction l1; simpl; auto. Qed.

Lemma reference_loop_other fs repos nav k :
  (forall r, In r repos -> title r <> k) ->
  dict_get k (reference_loop fs repos nav) = dict_get k nav.
Proof.
  revert nav. induction repos as [|r rs IH]; intros nav H; simpl; [reflexivity|].
  rewrite IH by (intros; apply H; simpl; auto).
  apply dict_get_set_other. intros E. apply (H r); simpl; auto.
Qed.

Lemma reference_loop_key fs repos nav k :
  dict_get k nav <> None -> dict_get k (reference_loop fs repos nav) <> None.
Proof.
  revert nav. induction repos as [|r rs IH]; intros nav H; simpl; [assumption|].
  apply IH. destruct (string_dec k (title r)) as [->|Hne].
  - now rewrite dict_get_set_same.
  - now rewrite dict_get_set_other.
Qed.

Lemma reference_loop_values fs repos nav k v :
  In (k, v) (reference_loop fs repos nav) ->
  In (k, v) nav \/ exists r, In r repos /\ v = reference_section fs r.
Proof.
  revert nav. induction repos as [|r rs IH]; intros nav H; simpl in *; [auto|].
  destruct (IH _ H) as [H1|[r' [Hr' ->]]].
  - apply dict_set_In in H1 as [H1| ->]; eauto.
  - eauto.
Qed.

(** C7 (corrected): the reference grouping is a dict keyed by repository
    title with one entry per distinct title of [Repos.all]; every value is
    the four sections (REST API, Readme, Code API, Changelog) of one
    repository, and a repository whose title no later repository reuses
    gets its own four sections, whether or not any file exists; the Code
    API listing is empty when [docs/reference] does not exist. *)
Theorem repo_reference_grouping_sections fs rs :
  exists d, repo_reference_grouping fs rs = PDict d /\
  (forall r, In r (all rs) -> dict_get (title r) d <> None) /\
  (forall pre r post, all rs = (pre ++ r :: post)%list ->
     (forall r', In r' post -> title r' <> title r) ->
     dict_get (title r) d = Some (reference_section fs r)) /\
  (forall k v, In (k, v) d -> exists r, In r (all rs) /\ v = reference_section fs r) /\
  (forall r, reference_section fs r =
     PList [dict1 "REST API" (PStr (name r ++ "/docs/rest_api.md"));
            dict1 "Readme" (PStr (name r ++ "/README.md"));
            dict1 "Code API" (str_list (get_children fs (name r ++ "/docs/reference")));
            dict1 "Changelog" (PStr (name r ++ "/CHANGELOG.md"))]) /\
  (forall r, listdir fs (name r ++ "/docs/reference") = None ->
     reference_section fs r =
     PList [dict1 "REST API" (PStr (name r ++ "/docs/rest_api.md"));
            dict1 "Readme" (PStr (name r ++ "/README.md"));
            dict1 "Code API" (PList []);
            dict1 "Changelog" (PStr (name r ++ "/CHANGELOG.md"))]).
Proof.
  exists (reference_loop fs (all rs) []). split; [reflexivity|].
  split.
  { intros r Hin. apply in_split in Hin as [pre [post E]].
    rewrite E, reference_loop_app. simpl. apply reference_loop_key.
    now rewrite dict_get_set_same. }
  split.
  { intros pre r post E Hpost. rewrite E, reference_loop_app. simpl.
    rewrite reference_loop_other by (intros r' Hr' Ht; exact (Hpost r' Hr' Ht)).
    apply dict_get_set_same. }
  split.
  { intros k v Hin. apply reference_loop_values in Hin as [[]|H]. exact H. }
  split; [reflexivity|].
  intros r H. unfold reference_section. now rewrite get_children_missing.
Qed.

Lemma repo_reference_grouping_sections_witness :
  dict_get "Pkg A" (match repo_reference_grouping [] repos_core_pkg_a with
                    | PDict d => d | _ => [] end) =
  Some (PList [dict1 "REST API" (PStr "pkg_a/docs/rest_api.md");
               dict1 "Readme" (PStr "pkg_a/README.md");
               dict1 "Code API" (PList []);
               dict1 "Changelog" (PStr "pkg_a/CHANGELOG.md")]).
Proof.
  destruct (repo_reference_grouping_sections [] repos_core_pkg_a)
    as [d [Hd [_ [Hlast [_ [_ Hmissing]]]]]].
  rewrite Hd. transitivity (Some (reference_section [] repo_pkg_a)).
  - apply (Hlast [repo_core] repo_pkg_a []); [reflexivity | intros _ []].
  - rewrite (Hmissing repo_pkg_a eq_refl). reflexivity.
Defined.

(** Two repositories sharing the title [Docs]. *)
Definition repo_docs_a : Repo := mk_repo "Docs" "docs_a" (Some "core").
Definition repo_docs_b : Repo := mk_repo "Docs" "docs_b" (Some "content").
Definition repos_same_title : Repos := mkRepos repo_docs_a [repo_docs_b] [].

(** C7: with two repositories of the same title the reference grouping
    holds one entry, that of the later one; the four sections of the core
    repository are emitted nowhere. *)
Lemma repo_reference_grouping_title_collision :
  exists d, repo_reference_grouping [] repos_same_title = PDict d /\
    length d = 1 /\ ~ In (reference_section [] repo_docs_a) (map snd d).
Proof.
  eexists. split; [reflexivity|]. split; [reflexivity|].
  simpl. intros [H|[]]. discriminate H.
Qed.

(** ** Loading the repository list *)

(** C8 (corrected): [Repos.from_yaml] fails when the core list is missing
    ([KeyError]) or empty ([IndexError]), and otherwise builds the [Repos]
    from the first core entry and the content and other entries as given,
    without comparing repository names. *)
Theorem from_yaml_no_name_check repos :
  (dict_get "core" repos = None -> from_yaml_data repos = Err (KeyError "core")) /\
  (dict_get "core" repos = Some [] -> from_yaml_data repos = Err IndexError) /\
  (forall ce more cr centries cs oentries os,
     dict_get "core" repos = Some (ce :: more) -> repo_of_entry ce "core" = Ok cr ->
     dict_get "content" repos = Some centries ->
     repos_of_entries centries "content" = Ok cs ->
     dict_get "other" repos = Some oentries ->
     repos_of_entries oentries "other" = Ok os ->
     from_yaml_data repos = Ok (mkRepos cr cs os)).
Proof.
  unfold from_yaml_data.
  split; [intros H; now rewrite H|].
  split; [intros H; now rewrite H|].
  intros ce more cr centries cs oentries os H1 H2 H3 H4 H5 H6.
  rewrite H1. simpl. rewrite H2. simpl. rewrite H3. simpl. rewrite H4. simpl.
  rewrite H5. simpl. rewrite H6. reflexivity.
Qed.

(** A repository list in which two content repositories share a name. *)
Definition yaml_duplicate_names : list (string * list yaml_entry) :=
  [("core", [[("title", "Pulp Core"); ("name", "pulpcore")]]);
   ("content", [[("title", "Rpm Packages"); ("name", "pulp_rpm")];
                [("title", "Rpm Again"); ("name", "pulp_rpm")]]);
   ("other", [])].

Lemma from_yaml_no_name_check_witness :
  from_yaml_data [("core", [])] = Err IndexError /\
  from_yaml_data yaml_duplicate_names =
    Ok (mkRepos (mk_repo "Pulp Core" "pulpcore" (Some "core"))
          [mk_repo "Rpm Packages" "pulp_rpm" (Some "content");
           mk_repo "Rpm Again" "pulp_rpm" (Some "content")] []).
Proof.
  split.
  - apply (proj1 (proj2 (from_yaml_no_name_check [("core", [])]))). reflexivity.
  - apply (proj2 (proj2 (from_yaml_no_name_check yaml_duplicate_names))
             [("title", "Pulp Core"); ("name", "pulpcore")] []
             _ [[("title", "Rpm Packages"); ("name", "pulp_rpm")];
                [("title", "Rpm Again"); ("name", "pulp_rpm")]] _ [] []); reflexivity.
Defined.

(** C8: a repository list with colliding names is accepted. *)
Lemma from_yaml_accepts_duplicate_names :
  exists rs, from_yaml_data yaml_duplicate_names = Ok rs /\ ~ NoDup (map name (all rs)).
Proof.
  eexists. split; [vm_compute; reflexivity|].
  simpl. intros H. inversion H as [|x l Hx Hl]. inversion Hl as [|y l' Hy Hl'].
  apply Hy. simpl. auto.
Qed.

(** ** Quickstart extraction *)

(** Position of [k] in an insertion-ordered dict. *)
Fixpoint key_index {V} (k : string) (d : list (string * V)) : option nat :=
  match d with
  | [] => None
  | (k', _) :: t => if String.eqb k k' then Some 0 else option_map S (key_index k t)
  end.

Section KeyIndex.
Context {V : Type}.

Lemma key_index_set_keep (k k' : string) (v : V) d i :
  key_index k' d = Some i -> key_index k' (dict_set k v d) = Some i.
Proof.
  revert i. induction d as [|[k0 v0] t IH]; intros i H; simpl in *; [discriminate|].
  destruct (String.eqb k k0); simpl; [exact H|].
  destruct (String.eqb k' k0); [exact H|].
  destruct (key_index k' t) as [i'|]; simpl in H; [|discriminate].
  injection H as <-. now rewrite (IH i' eq_refl).
Qed.

Lemma key_index_set_new (k : string) (v : V) d :
  dict_get k d = None -> key_index k (dict_set k v d) = Some (length d).
Proof.
  induction d as [|[k0 v0] t IH]; intros H; simpl in *.
  - now rewrite String.eqb_refl.
  - destruct (String.eqb k k0) eqn:E; [discriminate|]. simpl. rewrite E, IH by exact H.
    reflexivity.
Qed.

Lemma length_set_new (k : string) (v : V) d :
  dict_get k d = None -> length (dict_set k v d) = S (length d).
Proof.
  induction d as [|[k0 v0] t IH]; intros H; simpl in *; [reflexivity|].
  destruct (String.eqb k k0) eqn:E; [discriminate|]. simpl. now rewrite IH.
Qed.

Lemma key_index_lt (k : string) (d : list (string * V)) i :
  key_index k d = Some i -> i < length d.
Proof.
  revert i. induction d as [|[k0 v0] t IH]; intros i H; simpl in *; [discriminate|].
  destruct (String.eqb k k0); [injection H as <-; lia|].
  destruct (key_index k t) as [i'|]; simpl in H; [|discriminate].
  injection H as <-. specialize (IH i' eq_refl). lia.
Qed.

Lemma key_index_present (k : string) (d : list (string * V)) v :
  dict_get k d = Some v -> exists i, key_index k d = Some i.
Proof.
  induction d as [|[k0 v0] t IH]; intros H; simpl in *; [discriminate|].
  destruct (String.eqb k k0); [now exists 0|].
  destruct (IH H) as [i ->]. now exists (S i).
Qed.

End KeyIndex.

Definition content_type_known (ct : string) : Prop :=
  In ct ["tutorials"; "guides"; "learn"; "reference"].

Lemma pop_quickstart_decomp pre q post :
  Forall (fun p => is_quickstart_name (last_segment p) = false) pre ->
  is_quickstart_name (last_segment q) = true ->
  _pop_quickstart_from (pre ++ q :: post)%list = (Some q, (pre ++ post)%list).
Proof.
  induction 1 as [|p pre Hp Hpre IH]; intros Hq; simpl.
  - now rewrite Hq.
  - rewrite Hp, IH by exact Hq. reflexivity.
Qed.

(** Steps of the inner loop for a content type other than tutorials only
    write the How-to, Learn or Reference keys. *)
Lemma content_step_other fs template_str repo ct inner inner' :
  In ct ["guides"; "learn"; "reference"] ->
  content_step fs template_str repo ct inner = Ok inner' ->
  inner' = inner \/
  exists k v, In k ["How-to"; "Learn"; "Reference"] /\ inner' = dict_set k v inner.
Proof.
  intros Hct H. unfold content_step in H.
  destruct (py_format template_str (format_kwargs_content repo ct)) as [path|e];
    simpl in H; [|discriminate].
  destruct (_pop_quickstart_from (get_children fs path)) as [q rest].
  destruct Hct as [<-|[<-|[<-|[]]]];
    (destruct q; simpl in H);
    (destruct rest; [injection H as <-; auto|]);
    injection H as <-; right; eexists; eexists; split; try reflexivity; simpl; auto.
Qed.

Section Quickstart.
Variables (fs : filesystem) (template_str : string) (repo : Repo) (path : string).
Variables (q : string) (rest : list string).
Hypothesis Hformat : py_format template_str (format_kwargs_content repo "tutorials") = Ok path.
Hypothesis Hpop : _pop_quickstart_from (get_children fs path) = (Some q, rest).
Hypothesis Hq : q <> "".

Definition tutorials_value : option pyval :=
  match rest with [] => None | _ => Some (str_list rest) end.

Definition after_tutorials (inner : list (string * pyval)) : Prop :=
  dict_get "Quickstart" inner = Some (PStr q) /\
  dict_get "Tutorials" inner = tutorials_value /\
  (rest <> [] -> exists i j, key_index "Quickstart" inner = Some i /\
                             key_index "Tutorials" inner = Some j /\ i < j).

Definition before_tutorials (inner : list (string * pyval)) : Prop :=
  dict_get "Quickstart" inner = None /\ dict_get "Tutorials" inner = None.

Lemma content_step_tutorials inner :
  content_step fs template_str repo "tutorials" inner =
  Ok (match rest with
      | [] => dict_set "Quickstart" (PStr q) inner
      | _ => dict_set "Tutorials" (str_list rest) (dict_set "Quickstart" (PStr q) inner)
      end).
Proof.
  unfold content_step. rewrite Hformat. simpl. rewrite Hpop.
  destruct (String.eqb q "") eqn:E; [apply String.eqb_eq in E; contradiction|].
  simpl. destruct rest; reflexivity.
Qed.

Lemma other_key_preserves k v inner :
  In k ["How-to"; "Learn"; "Reference"] ->
  (after_tutorials inner -> after_tutorials (dict_set k v inner)) /\
  (before_tutorials inner -> before_tutorials (dict_set k v inner)).
Proof.
  intros Hk.
  assert (HQ : "Quickstart" <> k) by (destruct Hk as [<-|[<-|[<-|[]]]]; discriminate).
  assert (HT : "Tutorials" <> k) by (destruct Hk as [<-|[<-|[<-|[]]]]; discriminate).
  unfold after_tutorials, before_tutorials.
  rewrite !dict_get_set_other by assumption.
  split; [|auto].
  intros [H1 [H2 H3]]. split; [exact H1|]. split; [exact H2|].
  intros Hr. destruct (H3 Hr) as [i [j [Hi [Hj Hij]]]].
  exists i, j. split; [now apply key_index_set_keep|]. split; [now apply key_index_set_keep|].
  exact Hij.
Qed.

Lemma tutorials_step_after inner :
  (after_tutorials inner \/ before_tutorials inner) ->
  after_tutorials (match rest with
                   | [] => dict_set "Quickstart" (PStr q) inner
                   | _ => dict_set "Tutorials" (str_list rest) (dict_set "Quickstart" (PStr q) inner)
                   end).
Proof.
  intros Hinv. unfold after_tutorials, tutorials_value.
  destruct rest as [|f fs'] eqn:Er.
  - rewrite dict_get_set_same, dict_get_set_other by discriminate.
    split; [reflexivity|]. split; [|intros []; reflexivity].
    destruct Hinv as [[_ [H _]]|[_ H]]; rewrite H; [unfold tutorials_value; now rewrite Er | reflexivity].
  - rewrite dict_get_set_same, dict_get_set_other, dict_get_set_same by discriminate.
    split; [reflexivity|]. split; [reflexivity|]. intros _.
    destruct Hinv as [[_ [HT H3]]|[HQ HT]].
    + unfold tutorials_value in HT, H3. rewrite Er in HT, H3.
      destruct (H3 ltac:(discriminate)) as [i [j [Hi [Hj Hij]]]].
      exists i, j. split; [apply key_index_set_keep; now apply key_index_set_keep|].
      split; [apply key_index_set_keep; now apply key_index_set_keep|]. exact Hij.
    + exists (length inner), (S (length inner)).
      split; [apply key_index_set_keep; now apply key_index_set_new|].
      split; [|lia].
      rewrite <- (length_set_new "Quickstart" (PStr q) inner HQ).
      apply key_index_set_new. rewrite dict_get_set_other by discriminate. exact HT.
Qed.

Lemma content_loop_after cts inner inner' :
  Forall content_type_known cts ->
  content_loop fs template_str repo cts inner = Ok inner' ->
  after_tutorials inner -> after_tutorials inner'.
Proof.
  intros Hk. revert inner. induction Hk as [|ct cts Hct Hcts IH]; intros inner H Ha;
    simpl in H; [injection H as <-; exact Ha|].
  destruct Hct as [<-|Hct].
  - rewrite content_step_tutorials in H. simpl in H.
    apply (IH _ H). apply tutorials_step_after. auto.
  - destruct (content_step fs template_str repo ct inner) as [i1|e] eqn:E;
      simpl in H; [|discriminate].
    apply (IH _ H).
    destruct (content_step_other _ _ _ _ _ _ Hct E) as [->|[k [v [Hk' ->]]]]; [exact Ha|].
    now apply other_key_preserves.
Qed.

Lemma content_loop_before cts inner inner' :
  Forall content_type_known cts -> In "tutorials" cts ->
  content_loop fs template_str repo cts inner = Ok inner' ->
  before_tutorials inner -> after_tutorials inner'.
Proof.
  intros Hk. revert inner. induction Hk as [|ct cts Hct Hcts IH]; intros inner Hin H Hb;
    [destruct Hin|].
  simpl in H. destruct (string_dec ct "tutorials") as [->|Hne].
  - rewrite content_step_tutorials in H. simpl in H.
    apply (content_loop_after _ _ _ Hcts H). apply tutorials_step_after. auto.
  - destruct Hin as [E|Hin]; [congruence|].
    destruct Hct as [E|Hct]; [congruence|].
    destruct (content_step fs template_str repo ct inner) as [i1|e] eqn:E;
      simpl in H; [|discriminate].
    apply (IH _ Hin H).
    destruct (content_step_other _ _ _ _ _ _ Hct E) as [->|[k [v [Hk' ->]]]]; [exact Hb|].
    now apply other_key_preserves.
Qed.

End Quickstart.

Lemma group_expand_other fs template_str cts repos nav nav' k :
  group_expand fs template_str cts repos nav = Ok nav' ->
  (forall r, In r repos -> title r <> k) ->
  dict_get k nav' = dict_get k nav.
Proof.
  revert nav. induction repos as [|r rs IH]; intros nav H Hk; simpl in H.
  - now injection H as <-.
  - destruct (content_loop fs template_str r cts []) as [inner|e]; simpl in H; [|discriminate].
    rewrite (IH _ H) by (intros; apply Hk; simpl; auto).
    assert (Hne : k <> title r) by (intros E; apply (Hk r); simpl; auto).
    rewrite !dict_get_set_other by exact Hne. reflexivity.
Qed.

(** The entry of a repository whose title no later repository reuses is the
    dict its own inner loop built. *)
Lemma group_expand_entry fs template_str cts pre repo post nav nav' :
  group_expand fs template_str cts (pre ++ repo :: post)%list nav = Ok nav' ->
  (forall r', In r' post -> title r' <> title repo) ->
  exists inner, content_loop fs template_str repo cts [] = Ok inner /\
                dict_get (title repo) nav' = Some (PDict inner).
Proof.
  revert nav. induction pre as [|x pre IH]; intros nav H Hpost; simpl in H.
  - destruct (content_loop fs template_str repo cts []) as [inner|e]; simpl in H;
      [|discriminate].
    exists inner. split; [reflexivity|].
    rewrite (group_expand_other _ _ _ _ _ _ _ H) by (intros r Hr E; exact (Hpost r Hr E)).
    apply dict_get_set_same.
  - destruct (content_loop fs template_str x cts []) as [inner|e]; simpl in H;
      [|discriminate].
    exact (IH _ H Hpost).
Qed.

(** C2 (corrected): with a [{content}] template and known content types
    including tutorials, if the discovered tutorials list of a repository is
    [pre ++ q :: post] where [q] is its first file named quickstart.md or
    quick-start.md (case-insensitively), the entry of that repository (the
    last selected one carrying its title) maps [Quickstart] to [q] and
    [Tutorials] to [pre ++ post] (no [Tutorials] key when that is empty),
    with [Quickstart] placed before [Tutorials]. *)
Theorem repo_grouping_quickstart fs rs template_str repo_types content_types
    sel pre repo post nav path files_pre q files_post :
  str_contains template_str "{content}" = true ->
  Forall content_type_known (select_content content_types) ->
  In "tutorials" (select_content content_types) ->
  select_repos rs repo_types = Ok sel ->
  sel = (pre ++ repo :: post)%list ->
  (forall r', In r' post -> title r' <> title repo) ->
  repo_grouping fs rs template_str repo_types content_types = Ok (PDict nav) ->
  py_format template_str (format_kwargs_content repo "tutorials") = Ok path ->
  get_children fs path = (files_pre ++ q :: files_post)%list ->
  Forall (fun p => is_quickstart_name (last_segment p) = false) files_pre ->
  is_quickstart_name (last_segment q) = true ->
  exists inner,
    dict_get (title repo) nav = Some (PDict inner) /\
    dict_get "Quickstart" inner = Some (PStr q) /\
    dict_get "Tutorials" inner =
      match (files_pre ++ files_post)%list with
      | [] => None
      | _ => Some (str_list (files_pre ++ files_post))
      end /\
    ((files_pre ++ files_post)%list <> [] ->
     exists i j, key_index "Quickstart" inner = Some i /\
                 key_index "Tutorials" inner = Some j /\ i < j).
Proof.
  intros Hc Hknown Htut Hsel Hsplit Hpost Hrg Hfmt Hfiles Hpre Hq.
  unfold repo_grouping in Hrg. rewrite Hc, Hsel in Hrg. simpl in Hrg.
  destruct (group_expand fs template_str (select_content content_types) sel [])
    as [nav0|e] eqn:Eg; simpl in Hrg; [|discriminate].
  injection Hrg as <-. subst sel.
  destruct (group_expand_entry _ _ _ _ _ _ _ _ Eg Hpost) as [inner [Hloop Hget]].
  exists inner. split; [exact Hget|].
  assert (Hpop : _pop_quickstart_from (get_children fs path) =
                 (Some q, (files_pre ++ files_post)%list)).
  { rewrite Hfiles. now apply pop_quickstart_decomp. }
  assert (Hne : q <> "") by (intros ->; discriminate Hq).
  exact (content_loop_before fs template_str repo path q _ Hfmt Hpop Hne _ [] inner
           Hknown Htut Hloop (conj eq_refl eq_refl)).
Qed.

Definition fs_tutorials_quickstart : filesystem :=
  [("pkg_a/docs/user/tutorials", ["intro.md"; "quickstart.md"; "advanced.md"])].

Lemma repo_grouping_quickstart_witness :
  exists nav inner,
    repo_grouping fs_tutorials_quickstart repos_core_pkg_a "{repo}/docs/user/{content}"
      (Some ["content"]) None = Ok (PDict nav) /\
    dict_get "Pkg A" nav = Some (PDict inner) /\
    dict_get "Quickstart" inner = Some (PStr "pkg_a/docs/user/tutorials/quickstart.md") /\
    dict_get "Tutorials" inner =
      Some (str_list ["pkg_a/docs/user/tutorials/advanced.md";
                      "pkg_a/docs/user/tutorials/intro.md"]).
Proof.
  destruct (repo_grouping fs_tutorials_quickstart repos_core_pkg_a
              "{repo}/docs/user/{content}" (Some ["content"]) None)
    as [[s|l|nav]|e] eqn:E; try (vm_compute in E; discriminate).
  destruct (repo_grouping_quickstart fs_tutorials_quickstart repos_core_pkg_a
              "{repo}/docs/user/{content}" (Some ["content"]) None
              [repo_pkg_a] [] repo_pkg_a [] nav "pkg_a/docs/user/tutorials"
              ["pkg_a/docs/user/tutorials/advanced.md"; "pkg_a/docs/user/tutorials/intro.md"]
              "pkg_a/docs/user/tutorials/quickstart.md" [])
    as [inner [H1 [H2 [H3 _]]]].
  - reflexivity.
  - repeat (apply Forall_cons; [unfold content_type_known; simpl; auto|]). apply Forall_nil.
  - simpl; auto.
  - reflexivity.
  - reflexivity.
  - intros _ [].
  - exact E.
  - reflexivity.
  - reflexivity.
  - repeat constructor.
  - reflexivity.
  - exists nav, inner. repeat split; assumption.
Defined.

Definition fs_tutorials_upper_ext : filesystem :=
  [("pkg_a/docs/user/tutorials", ["intro.md"; "QuickStart.MD"; "advanced.md"])].

(** C2: a tutorial named [QuickStart.MD] does not match [*.md], so it is
    never discovered: no [Quickstart] key is produced for it. *)
Lemma repo_grouping_upper_ext_not_extracted :
  repo_grouping fs_tutorials_upper_ext repos_core_pkg_a "{repo}/docs/user/{content}"
    (Some ["content"]) (Some ["tutorials"]) =
  Ok (PDict [("Pkg A", PDict [("Tutorials",
       str_list ["pkg_a/docs/user/tutorials/advanced.md";
                 "pkg_a/docs/user/tutorials/intro.md"])])]).
Proof. vm_compute. reflexivity. Qed.

(** * Further properties of the navigation code *)

(** ** [_pop_quickstart_from] *)

Definition is_quickstart_path (p : string) : Prop := is_quickstart_name (last_segment p) = true.

(** [_pop_quickstart_from] returns the first path whose file name is
    quickstart.md or quick-start.md (any case) and removes exactly that
    element, keeping the order of the others; when it returns [None] no
    path matches and the list is left as it was. *)
Theorem pop_quickstart_from_spec l :
  (fst (_pop_quickstart_from l) = None ->
     snd (_pop_quickstart_from l) = l /\ Forall (fun p => ~ is_quickstart_path p) l) /\
  (forall p l', _pop_quickstart_from l = (Some p, l') ->
     exists pre post, l = (pre ++ p :: post)%list /\
       Forall (fun x => ~ is_quickstart_path x) pre /\ is_quickstart_path p /\
       l' = (pre ++ post)%list).
Proof.
  unfold is_quickstart_path.
  induction l as [|x l IH]; simpl.
  - split; [auto|]. intros p l' H; discriminate.
  - destruct (is_quickstart_name (last_segment x)) eqn:Ex.
    + split; [simpl; discriminate|].
      intros p l' H. injection H as <- <-. exists [], l. simpl. auto.
    + destruct (_pop_quickstart_from l) as [q rest] eqn:E. simpl in *.
      destruct IH as [IH1 IH2]. split.
      * intros Hq. destruct (IH1 Hq) as [-> Hall]. split; [reflexivity|].
        constructor; [congruence | exact Hall].
      * intros p l' H. injection H as -> <-.
        destruct (IH2 p rest eq_refl) as [pre [post [-> [Hpre [Hp ->]]]]].
        exists (x :: pre), post. repeat split; auto. constructor; [congruence | exact Hpre].
Qed.

Lemma pop_quickstart_from_spec_witness :
  exists pre post,
    ["docs/intro.md"; "docs/Quick-Start.md"; "docs/quickstart.md"] = (pre ++ "docs/Quick-Start.md" :: post)%list /\
    Forall (fun x => ~ is_quickstart_path x) pre /\ is_quickstart_path "docs/Quick-Start.md" /\
    ["docs/intro.md"; "docs/quickstart.md"] = (pre ++ post)%list.
Proof.
  apply (proj2 (pop_quickstart_from_spec ["docs/intro.md"; "docs/Quick-Start.md"; "docs/quickstart.md"])).
  reflexivity.
Defined.

(** ** [str.format] *)



Lemma string_app_nil_r a : a ++ "" = a.
Proof. induction a; simpl; [reflexivity | now f_equal]. Qed.





(** ** Content types without a display name *)

(** A content type that [DISPLAY_NAMES] does not know (the docstring's
    [tutorial], say) raises [KeyError] in the inner loop exactly when its
    directory still holds files after the quickstart extraction; an empty
    directory passes silently. *)
Theorem content_step_unknown_type fs template_str repo ct inner path :
  py_format template_str (format_kwargs_content repo ct) = Ok path ->
  dict_get ct DISPLAY_NAMES = None ->
  (snd (_pop_quickstart_from (get_children fs path)) <> [] ->
     content_step fs template_str repo ct inner = Err (KeyError ct)) /\
  (snd (_pop_quickstart_from (get_children fs path)) = [] ->
     exists inner', content_step fs template_str repo ct inner = Ok inner').
Proof.
  intros Hf Hd. unfold content_step. rewrite Hf. cbn beta iota delta [bind].
  destruct (_pop_quickstart_from (get_children fs path)) as [q rest]. cbn beta iota delta [snd].
  split.
  - intros Hne. destruct rest as [|f rest]; [contradiction|]. cbv beta iota. now rewrite Hd.
  - intros ->. eexists. reflexivity.
Qed.

Definition fs_singular_tutorial : filesystem :=
  [("pkg_a/docs/user/tutorial", ["intro.md"])].

Lemma content_step_unknown_type_witness :
  content_step fs_singular_tutorial "{repo}/docs/user/{content}" repo_pkg_a "tutorial" [] =
    Err (KeyError "tutorial").
Proof.
  apply (proj1 (content_step_unknown_type fs_singular_tutorial "{repo}/docs/user/{content}"
           repo_pkg_a "tutorial" [] "pkg_a/docs/user/tutorial" eq_refl eq_refl)).
  discriminate.
Defined.

(** ** Order and contents of the grouping results *)

Section DictKeys.
Context {V : Type}.

Lemma keys_set_new (k : string) (v : V) d :
  dict_get k d = None -> map fst (dict_set k v d) = (map fst d ++ [k])%list.
Proof.
  induction d as [|[k0 v0] t IH]; intros H; simpl in *; [reflexivity|].
  destruct (String.eqb k k0) eqn:E; [discriminate|]. simpl. now rewrite IH.
Qed.

Lemma dict_set_new (k : string) (v : V) d :
  dict_get k d = None -> dict_set k v d = (d ++ [(k, v)])%list.
Proof.
  induction d as [|[k0 v0] t IH]; intros H; simpl in *; [reflexivity|].
  destruct (String.eqb k k0) eqn:E; [discriminate|]. now rewrite IH.
Qed.

Lemma dict_set_twice (k : string) (v1 v2 : V) d :
  dict_set k v2 (dict_set k v1 d) = dict_set k v2 d.
Proof.
  induction d as [|[k0 v0] t IH]; simpl.
  - now rewrite String.eqb_refl.
  - destruct (String.eqb k k0) eqn:E; simpl; rewrite E; [reflexivity | now rewrite IH].
Qed.

Lemma dict_set_In_key (k k' : string) (v v' : V) d :
  In (k, v) (dict_set k' v' d) -> In (k, v) d \/ (k = k' /\ v = v').
Proof.
  induction d as [|[k0 v0] t IH]; simpl.
  - intros [E|[]]. injection E; auto.
  - destruct (String.eqb k' k0) eqn:E; simpl.
    + apply String.eqb_eq in E. subst k0.
      intros [E'|H]; [injection E' as -> ->; auto | auto].
    + intros [E'|H]; [auto | destruct (IH H); auto].
Qed.

End DictKeys.

Lemma reference_loop_fresh fs repos nav :
  NoDup (map title repos) -> (forall r, In r repos -> dict_get (title r) nav = None) ->
  reference_loop fs repos nav = (nav ++ map (fun r => (title r, reference_section fs r)) repos)%list.
Proof.
  revert nav. induction repos as [|r rs IH]; intros nav Hnd Hnone; simpl.
  - now rewrite app_nil_r.
  - inversion Hnd as [|x l Hx Hl]; subst.
    rewrite IH; [| exact Hl |].
    + rewrite dict_set_new by (apply Hnone; simpl; auto). rewrite <- app_assoc. reflexivity.
    + intros r' Hr'. rewrite dict_get_set_other; [apply Hnone; simpl; auto|].
      intros E. apply Hx. rewrite <- E. now apply in_map.
Qed.

(** With distinct repository titles the reference grouping lists every
    repository of [Repos.all], in that order, each with its own four
    sections. *)
Theorem repo_reference_grouping_in_order fs rs :
  NoDup (map title (all rs)) ->
  repo_reference_grouping fs rs =
  PDict (map (fun r => (title r, reference_section fs r)) (all rs)).
Proof.
  intros H. unfold repo_reference_grouping.
  rewrite reference_loop_fresh by (auto; intros; reflexivity). reflexivity.
Qed.

Lemma repo_reference_grouping_in_order_witness :
  repo_reference_grouping [] repos_core_pkg_a =
  PDict [("Pulp Core", reference_section [] repo_core); ("Pkg A", reference_section [] repo_pkg_a)].
Proof.
  apply (repo_reference_grouping_in_order [] repos_core_pkg_a).
  repeat constructor; simpl; intuition discriminate.
Defined.

Lemma group_expand_keys fs template_str cts repos nav nav' :
  group_expand fs template_str cts repos nav = Ok nav' ->
  NoDup (map title repos) -> (forall r, In r repos -> dict_get (title r) nav = None) ->
  map fst nav' = (map fst nav ++ map title repos)%list.
Proof.
  revert nav. induction repos as [|r rs IH]; intros nav H Hnd Hnone; simpl in H.
  - injection H as <-. now rewrite app_nil_r.
  - destruct (content_loop fs template_str r cts []) as [inner|e]; simpl in H; [|discriminate].
    inversion Hnd as [|x l Hx Hl]; subst.
    rewrite dict_set_twice in H.
    rewrite (IH _ H Hl).
    + rewrite keys_set_new by (apply Hnone; simpl; auto). rewrite <- app_assoc. reflexivity.
    + intros r' Hr'. rewrite dict_get_set_other; [apply Hnone; simpl; auto|].
      intros E. apply Hx. rewrite <- E. now apply in_map.
Qed.

(** With content-type expansion and distinct titles, the keys of the result
    are the titles of all selected repositories, in selection order, files
    or no files. *)
Theorem repo_grouping_expand_keys fs rs template_str repo_types content_types sel nav :
  str_contains template_str "{content}" = true ->
  select_repos rs repo_types = Ok sel ->
  NoDup (map title sel) ->
  repo_grouping fs rs template_str repo_types content_types = Ok (PDict nav) ->
  map fst nav = map title sel.
Proof.
  intros Hc Hs Hnd H. unfold repo_grouping in H. rewrite Hc, Hs in H. simpl in H.
  destruct (group_expand fs template_str (select_content content_types) sel []) as [n|e]
    eqn:E; simpl in H; [|discriminate].
  injection H as <-. exact (group_expand_keys _ _ _ _ _ _ E Hnd (fun _ _ => eq_refl)).
Qed.

Lemma repo_grouping_expand_keys_witness :
  map fst (match repo_grouping [] repos_core_pkg_a "{repo}/docs/dev/{content}" None None with
           | Ok (PDict nav) => nav | _ => [] end) = ["Pulp Core"; "Pkg A"].
Proof.
  destruct (repo_grouping [] repos_core_pkg_a "{repo}/docs/dev/{content}" None None)
    as [[s|l|nav]|e] eqn:E; try (vm_compute in E; discriminate).
  apply (repo_grouping_expand_keys [] repos_core_pkg_a "{repo}/docs/dev/{content}" None None
           (all repos_core_pkg_a)); try reflexivity; [|exact E].
  repeat constructor; simpl; intuition discriminate.
Defined.

(** The files [repo_grouping] discovers for a repository when it does not
    expand content types. *)
Definition simple_files (fs : filesystem) (template_str : string) (repo : Repo) : list string :=
  match py_format template_str (format_kwargs repo) with
  | Ok p => get_children fs p
  | Err _ => []
  end.

Definition has_files (fs : filesystem) (template_str : string) (repo : Repo) : bool :=
  match simple_files fs template_str repo with [] => false | _ => true end.

Lemma group_simple_other fs template_str repos nav nav' k :
  group_simple fs template_str repos nav = Ok nav' ->
  (forall r, In r repos -> title r <> k) -> dict_get k nav' = dict_get k nav.
Proof.
  revert nav. induction repos as [|y ys IH]; intros nav H Hout; simpl in H.
  - now injection H as <-.
  - destruct (py_format template_str (format_kwargs y)) as [a|e]; simpl in H; [|discriminate].
    rewrite (IH _ H (fun z Hz => Hout z (or_intror Hz))).
    destruct (get_children fs a); [reflexivity|].
    apply dict_get_set_other. intros E. apply (Hout y (or_introl eq_refl)). auto.
Qed.

Lemma group_simple_spec fs template_str repos nav nav' :
  group_simple fs template_str repos nav = Ok nav' ->
  NoDup (map title repos) -> (forall r, In r repos -> dict_get (title r) nav = None) ->
  map fst nav' = (map fst nav ++ map title (filter (has_files fs template_str) repos))%list /\
  (forall r, In r repos -> dict_get (title r) nav' =
     match simple_files fs template_str r with [] => None | l => Some (str_list l) end).
Proof.
  revert nav. induction repos as [|r rs IH]; intros nav H Hnd Hnone; simpl in H.
  - injection H as <-. split; [now rewrite app_nil_r | intros _ []].
  - destruct (py_format template_str (format_kwargs r)) as [p|e] eqn:Ef; simpl in H;
      [|discriminate].
    inversion Hnd as [|x l Hx Hl]; subst.
    assert (Hout : forall r', In r' rs -> title r' <> title r).
    { intros r' Hr' E. apply Hx. rewrite <- E. now apply in_map. }
    set (nav1 := match get_children fs p with [] => nav | _ => dict_set (title r)
                   (str_list (get_children fs p)) nav end) in H.
    assert (Hnone1 : forall r', In r' rs -> dict_get (title r') nav1 = None).
    { intros r' Hr'. unfold nav1. destruct (get_children fs p); [apply Hnone; simpl; auto|].
      rewrite dict_get_set_other by (apply Hout; exact Hr'). apply Hnone; simpl; auto. }
    destruct (IH _ H Hl Hnone1) as [Hk Hv].
    assert (Hfiles : simple_files fs template_str r = get_children fs p)
      by (unfold simple_files; now rewrite Ef).
    split.
    + rewrite Hk. unfold nav1. simpl.
      replace (has_files fs template_str r) with
        (match get_children fs p with [] => false | _ => true end)
        by (unfold has_files; now rewrite Hfiles).
      destruct (get_children fs p); [reflexivity|].
      rewrite keys_set_new by (apply Hnone; simpl; auto). rewrite <- app_assoc. reflexivity.
    + intros r' [<-|Hr']; [|apply Hv; exact Hr'].
      assert (Hkeep : dict_get (title r) nav' = dict_get (title r) nav1).
      { apply (group_simple_other _ _ _ _ _ _ H). intros y Hy E. exact (Hout y Hy E). }
      rewrite Hkeep, Hfiles. unfold nav1.
      destruct (get_children fs p); [apply Hnone; simpl; auto|].
      apply dict_get_set_same.
Qed.

(** Without content-type expansion and with distinct titles, a selected
    repository is a key exactly when its directory has files, mapped to
    those files unchanged (no quickstart extraction), and the keys follow
    the selection order. *)
Theorem repo_grouping_simple_spec fs rs template_str repo_types content_types sel nav :
  str_contains template_str "{content}" = false ->
  select_repos rs repo_types = Ok sel ->
  NoDup (map title sel) ->
  repo_grouping fs rs template_str repo_types content_types = Ok (PDict nav) ->
  map fst nav = map title (filter (has_files fs template_str) sel) /\
  (forall r, In r sel -> dict_get (title r) nav =
     match simple_files fs template_str r with [] => None | l => Some (str_list l) end).
Proof.
  intros Hc Hs Hnd H. unfold repo_grouping in H. rewrite Hc, Hs in H. simpl in H.
  destruct (group_simple fs template_str sel []) as [n|e] eqn:E; simpl in H; [|discriminate].
  injection H as <-. exact (group_simple_spec _ _ _ _ _ E Hnd (fun _ _ => eq_refl)).
Qed.

Lemma repo_grouping_simple_spec_witness :
  dict_get "Pkg A" (match repo_grouping fs_tutorials_quickstart repos_core_pkg_a
                     "{repo}/docs/{user}/tutorials" None None with
                    | Ok (PDict nav) => nav | _ => [] end) =
  Some (str_list ["pkg_a/docs/user/tutorials/advanced.md"; "pkg_a/docs/user/tutorials/intro.md";
                  "pkg_a/docs/user/tutorials/quickstart.md"]).
Proof.
  destruct (repo_grouping fs_tutorials_quickstart repos_core_pkg_a
              "{repo}/docs/{user}/tutorials" None None)
    as [[s|l|nav]|e] eqn:E; try (vm_compute in E; discriminate).
  change "Pkg A" with (title repo_pkg_a).
  rewrite (proj2 (repo_grouping_simple_spec fs_tutorials_quickstart repos_core_pkg_a
             "{repo}/docs/{user}/tutorials" None None (all repos_core_pkg_a) nav
             eq_refl eq_refl ltac:(repeat constructor; simpl; intuition discriminate) E)
             repo_pkg_a (or_intror (or_introl eq_refl))).
  reflexivity.
Defined.

(** ** What the expanding grouping lists *)

Lemma pop_quickstart_incl (l : list string) :
  let '(q, rest) := _pop_quickstart_from l in
  (forall x, q = Some x -> In x l) /\ incl rest l.
Proof.
  induction l as [|p t IH]; simpl.
  - split; [discriminate | apply incl_refl].
  - destruct (is_quickstart_name (last_segment p)).
    + split; [intros x E; injection E as <-; auto | apply incl_tl, incl_refl].
    + destruct (_pop_quickstart_from t) as [q rest]. destruct IH as [H1 H2].
      split; [intros x E; right; auto | apply incl_cons; [left; reflexivity | apply incl_tl; exact H2]].
Qed.

(** Every entry of the dict built for [repo] comes from a file discovered for
    [repo] under one of [cts]: the quickstart of a tutorials directory, or a
    sublist of a directory's files under that content type's display name. *)
Definition InnerSound (fs : filesystem) (template_str : string) (repo : Repo)
  (cts : list string) (inner : list (string * pyval)) : Prop :=
  forall k v, In (k, v) inner ->
  exists ct p, In ct cts /\ py_format template_str (format_kwargs_content repo ct) = Ok p /\
    ((k = "Quickstart" /\ lower ct = "tutorials" /\ exists q, v = PStr q /\ In q (get_children fs p)) \/
     (dict_get ct DISPLAY_NAMES = Some k /\ exists l, v = str_list l /\ incl l (get_children fs p))).

Lemma content_step_sound fs template_str repo cts ct inner inner' :
  content_step fs template_str repo ct inner = Ok inner' -> In ct cts ->
  InnerSound fs template_str repo cts inner -> InnerSound fs template_str repo cts inner'.
Proof.
  intros H Hct Hs. unfold content_step in H.
  destruct (py_format template_str (format_kwargs_content repo ct)) as [p|e] eqn:Ef;
    cbn beta iota delta [bind] in H; [|discriminate].
  pose proof (pop_quickstart_incl (get_children fs p)) as Hp.
  destruct (_pop_quickstart_from (get_children fs p)) as [q rest].
  destruct Hp as [Hq Hrest].
  set (inner1 := match q with
                 | Some q0 => if String.eqb (lower ct) "tutorials" && negb (String.eqb q0 "")
                              then dict_set "Quickstart" (PStr q0) inner else inner
                 | None => inner end) in H.
  assert (Hs1 : InnerSound fs template_str repo cts inner1).
  { unfold inner1. destruct q as [q0|]; [|exact Hs].
    destruct (String.eqb (lower ct) "tutorials" && negb (String.eqb q0 "")) eqn:Eb; [|exact Hs].
    apply andb_true_iff in Eb. destruct Eb as [Eb _]. apply String.eqb_eq in Eb.
    intros k v Hin. destruct (dict_set_In_key _ _ _ _ _ Hin) as [Hin'|[-> ->]]; [exact (Hs k v Hin')|].
    exists ct, p. split; [exact Hct|]. split; [exact Ef|]. left. split; [reflexivity|].
    split; [exact Eb|]. exists q0. split; [reflexivity | apply Hq; reflexivity]. }
  destruct rest as [|f more]; [injection H as <-; exact Hs1|].
  destruct (dict_get ct DISPLAY_NAMES) as [dn|] eqn:Ed; [|discriminate].
  injection H as <-. intros k v Hin.
  destruct (dict_set_In_key _ _ _ _ _ Hin) as [Hin'|[-> ->]]; [exact (Hs1 k v Hin')|].
  exists ct, p. split; [exact Hct|]. split; [exact Ef|]. right. split; [exact Ed|].
  exists (f :: more). split; [reflexivity | exact Hrest].
Qed.

Lemma content_loop_sound fs template_str repo cts sub inner inner' :
  incl sub cts -> content_loop fs template_str repo sub inner = Ok inner' ->
  InnerSound fs template_str repo cts inner -> InnerSound fs template_str repo cts inner'.
Proof.
  revert inner. induction sub as [|ct more IH]; intros inner Hi H Hs; simpl in H.
  - now injection H as <-.
  - destruct (content_step fs template_str repo ct inner) as [i1|e] eqn:E; simpl in H; [|discriminate].
    apply (IH i1); [exact (proj2 (incl_cons_inv Hi)) |exact H|].
    apply (content_step_sound _ _ _ _ _ _ _ E); [apply Hi; left; reflexivity | exact Hs].
Qed.

Lemma group_expand_sound fs template_str cts repos nav nav' :
  group_expand fs template_str cts repos nav = Ok nav' ->
  forall k v, In (k, v) nav' -> In (k, v) nav \/
    exists r, In r repos /\ k = title r /\
      exists inner, v = PDict inner /\ InnerSound fs template_str r cts inner.
Proof.
  revert nav. induction repos as [|r rs IH]; intros nav H k v Hin; simpl in H.
  - injection H as <-. now left.
  - destruct (content_loop fs template_str r cts []) as [inner|e] eqn:E; simpl in H; [|discriminate].
    rewrite dict_set_twice in H.
    destruct (IH _ H k v Hin) as [Hin'|[r' [Hr' Hk]]]; [|right; exists r'; split; [right; exact Hr'|exact Hk]].
    destruct (dict_set_In_key _ _ _ _ _ Hin') as [Hn|[-> ->]]; [now left|].
    right. exists r. split; [left; reflexivity|]. split; [reflexivity|].
    exists inner. split; [reflexivity|].
    apply (content_loop_sound _ _ _ _ cts [] _ (incl_refl _) E). intros k' v' [].
Qed.

(** With content-type expansion, every key of the result is the title of a
    selected repository whose dict lists only files discovered for that
    repository under the requested content types. *)
Theorem repo_grouping_expand_sound fs rs template_str repo_types content_types sel nav :
  str_contains template_str "{content}" = true ->
  select_repos rs repo_types = Ok sel ->
  repo_grouping fs rs template_str repo_types content_types = Ok (PDict nav) ->
  forall k v, In (k, v) nav ->
  exists r, In r sel /\ k = title r /\
    exists inner, v = PDict inner /\
      InnerSound fs template_str r (select_content content_types) inner.
Proof.
  intros Hc Hs H k v Hin. unfold repo_grouping in H. rewrite Hc, Hs in H. simpl in H.
  destruct (group_expand fs template_str (select_content content_types) sel []) as [n|e]
    eqn:E; simpl in H; [|discriminate].
  injection H as <-. destruct (group_expand_sound _ _ _ _ _ _ E k v Hin) as [[]|Hr]. exact Hr.
Qed.

Lemma repo_grouping_expand_sound_witness :
  match repo_grouping fs_tutorials_quickstart repos_core_pkg_a "{repo}/docs/user/{content}" None None with
  | Ok (PDict ((k, v) :: _)) =>
      exists r, In r (all repos_core_pkg_a) /\ k = title r /\
        exists inner, v = PDict inner /\
          InnerSound fs_tutorials_quickstart "{repo}/docs/user/{content}" r (select_content None) inner
  | _ => False
  end.
Proof.
  destruct (repo_grouping fs_tutorials_quickstart repos_core_pkg_a "{repo}/docs/user/{content}" None None)
    as [[s|l|[|[k v] nav]]|e] eqn:E; try (vm_compute in E; discriminate).
  apply (repo_grouping_expand_sound fs_tutorials_quickstart repos_core_pkg_a
           "{repo}/docs/user/{content}" None None (all repos_core_pkg_a) ((k, v) :: nav)
           eq_refl eq_refl E).
  left. reflexivity.
Defined.

(** ** [grouped_by_persona] never raises *)

Lemma content_step_ok fs template_str repo ct inner p :
  py_format template_str (format_kwargs_content repo ct) = Ok p ->
  dict_get ct DISPLAY_NAMES <> None ->
  exists inner', content_step fs template_str repo ct inner = Ok inner'.
Proof.
  intros Hf Hd. unfold content_step. rewrite Hf. cbn beta iota delta [bind].
  destruct (_pop_quickstart_from (get_children fs p)) as [q rest].
  destruct rest as [|f more]; [eexists; reflexivity|].
  destruct (dict_get ct DISPLAY_NAMES); [eexists; reflexivity | contradiction].
Qed.

Lemma content_loop_ok fs template_str repo cts :
  (forall ct, In ct cts -> dict_get ct DISPLAY_NAMES <> None /\
     exists p, py_format template_str (format_kwargs_content repo ct) = Ok p) ->
  forall inner, exists inner', content_loop fs template_str repo cts inner = Ok inner'.
Proof.
  induction cts as [|ct more IH]; intros H inner; simpl.
  - eexists; reflexivity.
  - destruct (H ct (or_introl eq_refl)) as [Hd [p Hf]].
    destruct (content_step_ok fs _ _ _ inner _ Hf Hd) as [i1 E]. rewrite E. simpl.
    apply IH. intros c Hc. apply H. now right.
Qed.

Lemma group_expand_ok fs template_str cts repos :
  (forall r, In r repos -> exists inner, content_loop fs template_str r cts [] = Ok inner) ->
  forall nav, exists nav', group_expand fs template_str cts repos nav = Ok nav'.
Proof.
  induction repos as [|r rs IH]; intros H nav; simpl.
  - eexists; reflexivity.
  - destruct (H r (or_introl eq_refl)) as [inner E]. rewrite E. simpl.
    apply IH. intros r' Hr'. apply H. now right.
Qed.

Lemma persona_grouping_ok fs rs persona repo_type :
  In persona ["user"; "admin"; "dev"] -> In repo_type ["content"; "other"] ->
  exists nav, repo_grouping fs rs ("{repo}/docs/" ++ persona ++ "/{content}")
                (Some [repo_type]) None = Ok nav.
Proof.
  intros Hp Ht.
  assert (Hsel : exists sel, select_repos rs (Some [repo_type]) = Ok sel).
  { destruct Ht as [<-|[<-|[]]]; eexists; reflexivity. }
  destruct Hsel as [sel Hsel].
  assert (Hc : str_contains ("{repo}/docs/" ++ persona ++ "/{content}") "{content}" = true).
  { destruct Hp as [<-|[<-|[<-|[]]]]; reflexivity. }
  unfold repo_grouping. rewrite Hsel, Hc. cbn beta iota delta [negb bind].
  destruct (group_expand_ok fs ("{repo}/docs/" ++ persona ++ "/{content}")
              (select_content None) sel) with (nav := @nil (string * pyval)) as [nav E].
  - intros r _. apply content_loop_ok. intros ct Hct.
    destruct Hct as [<-|[<-|[<-|[]]]];
      (split; [discriminate|]); destruct Hp as [<-|[<-|[<-|[]]]]; eexists; reflexivity.
  - rewrite E. eexists; reflexivity.
Qed.

(** [grouped_by_persona] raises no error on any checkout: its six
    [repo_grouping] calls use the known content types only and templates
    whose fields are all supplied. *)
Theorem grouped_by_persona_ok fs rs : exists nav, grouped_by_persona fs rs = Ok nav.
Proof.
  unfold grouped_by_persona.
  destruct (persona_grouping_ok fs rs "user" "content") as [a1 E1]; [simpl; auto | simpl; auto |].
  destruct (persona_grouping_ok fs rs "user" "other") as [a2 E2]; [simpl; auto | simpl; auto |].
  destruct (persona_grouping_ok fs rs "admin" "content") as [a3 E3]; [simpl; auto | simpl; auto |].
  destruct (persona_grouping_ok fs rs "admin" "other") as [a4 E4]; [simpl; auto | simpl; auto |].
  destruct (persona_grouping_ok fs rs "dev" "content") as [a5 E5]; [simpl; auto | simpl; auto |].
  destruct (persona_grouping_ok fs rs "dev" "other") as [a6 E6]; [simpl; auto | simpl; auto |].
  simpl in E1, E2, E3, E4, E5, E6.
  rewrite E1. cbn beta iota delta [bind]. rewrite E2. cbn beta iota delta [bind].
  rewrite E3. cbn beta iota delta [bind]. rewrite E4. cbn beta iota delta [bind].
  rewrite E5. cbn beta iota delta [bind]. rewrite E6. cbn beta iota delta [bind].
  eexists; reflexivity.
Qed.

(** ** [update_local_checkouts] *)

Lemma update_list_app env l1 l2 :
  update_list env (l1 ++ l2) =
  let '(l1', e) := update_list env l1 in
  match e with
  | Some x => ((l1' ++ l2)%list, Some x)
  | None => let '(l2', e2) := update_list env l2 in ((l1' ++ l2')%list, e2)
  end.
Proof.
  induction l1 as [|o t IH]; simpl.
  - destruct (update_list env l2); reflexivity.
  - destruct (update_repo env o) as [o' [e|]]; [reflexivity|].
    rewrite IH. destruct (update_list env t) as [t' [e|]]; [reflexivity|].
    destruct (update_list env l2); reflexivity.
Qed.

(** The method is the loop over [self.all]. *)
Lemma update_local_checkouts_all env rs :
  let '(rs', e) := update_local_checkouts env rs in update_list env (obj_all rs) = (obj_all rs', e).
Proof.
  destruct rs as [c ct ot]. unfold update_local_checkouts, obj_all. simpl.
  destruct (update_repo env c) as [c' [e|]]; [reflexivity|].
  rewrite update_list_app.
  destruct (update_list env ct) as [ct' [e|]]; [reflexivity|].
  destruct (update_list env ot); reflexivity.
Qed.

Lemma update_repo_done env o o' :
  update_repo env o = (o', None) -> update_repo env o' = (o', None).
Proof.
  destruct o as [r st]. intros H. unfold update_repo in H.
  destruct (local_basepath r) eqn:El.
  - injection H as H. subst o'. unfold update_repo. cbv beta iota zeta. now rewrite El.
  - destruct (dict_get (name r) (checkouts env)) as [[text|]|] eqn:Ed; [| discriminate |].
    + injection H as H. subst o'. reflexivity.
    + injection H as H. subst o'. unfold update_repo. cbv beta iota zeta. now rewrite El, Ed.
Qed.

Lemma update_list_done env l l' :
  update_list env l = (l', None) -> update_list env l' = (l', None).
Proof.
  revert l'. induction l as [|o t IH]; intros l' H; simpl in H.
  - now injection H as <-.
  - destruct (update_repo env o) as [o' [e|]] eqn:Eo; [discriminate|].
    specialize (IH (fst (update_list env t))).
    destruct (update_list env t) as [t' e'] eqn:Et. injection H as <- ->.
    simpl. rewrite (update_repo_done _ _ _ Eo). simpl in IH. now rewrite (IH eq_refl).
Qed.

(** Running [update_local_checkouts] a second time, after a run that raised
    nothing, changes nothing and raises nothing: every repository it switched
    to a local checkout now has a [local_basepath] and is skipped. *)
Theorem update_local_checkouts_idempotent env rs rs' :
  update_local_checkouts env rs = (rs', None) -> update_local_checkouts env rs' = (rs', None).
Proof.
  destruct rs as [c ct ot]. unfold update_local_checkouts. simpl.
  destruct (update_repo env c) as [c' [e|]] eqn:Ec; [discriminate|].
  destruct (update_list env ct) as [ct' [e|]] eqn:Ect; [discriminate|].
  destruct (update_list env ot) as [ot' e3] eqn:Eot. intros H. injection H as <- ->.
  simpl. rewrite (update_repo_done _ _ _ Ec), (update_list_done _ _ _ Ect), (update_list_done _ _ _ Eot).
  reflexivity.
Qed.

Definition env_pkg_a : checkout_env :=
  mkCheckoutEnv "/home/dev" [("pkg_a", Some ("ref: refs/heads/feature" ++ String "010" ""))].

Definition objs_core_pkg_a : RepoObjs :=
  mkRepoObjs (repo_core, default_status) [(repo_pkg_a, default_status)] [].

Lemma update_local_checkouts_idempotent_witness :
  update_local_checkouts env_pkg_a (fst (update_local_checkouts env_pkg_a objs_core_pkg_a)) =
  (fst (update_local_checkouts env_pkg_a objs_core_pkg_a), None).
Proof.
  apply (update_local_checkouts_idempotent env_pkg_a objs_core_pkg_a). reflexivity.
Defined.

(** What one iteration keeps about an object, whatever it raises. *)
Definition obj_kept (env : checkout_env) (o o' : repo_obj) : Prop :=
  title (fst o') = title (fst o) /\ name (fst o') = name (fst o) /\
  owner (fst o') = owner (fst o) /\ repo_type (fst o') = repo_type (fst o) /\
  (local_basepath (fst o) <> None -> o' = o) /\
  (dict_get (name (fst o)) (checkouts env) = None -> o' = o).

Lemma update_repo_kept env o : obj_kept env o (fst (update_repo env o)).
Proof.
  destruct o as [r st]. unfold update_repo, obj_kept. cbn [fst].
  destruct (local_basepath r) eqn:El; [simpl; repeat split; auto|].
  destruct (dict_get (name r) (checkouts env)) as [[text|]|] eqn:Ed; simpl;
    (repeat split; auto); intros H;
    first [exfalso; apply H; reflexivity | discriminate H | reflexivity].
Qed.

Lemma update_list_kept env l : Forall2 (obj_kept env) l (fst (update_list env l)).
Proof.
  induction l as [|o t IH]; simpl; [constructor|].
  pose proof (update_repo_kept env o) as Ho.
  destruct (update_repo env o) as [o' [e|]]; simpl in *.
  - constructor; [exact Ho|]. clear. induction t; constructor; auto.
    unfold obj_kept; repeat split; auto.
  - destruct (update_list env t) as [t' e']. simpl in *. constructor; assumption.
Qed.

(** Whatever it raises, [update_local_checkouts] keeps every repository's
    title, name, owner and type, and leaves untouched every repository that
    already had a [local_basepath] or has no directory next to the working
    directory. *)
Theorem update_local_checkouts_kept env rs :
  Forall2 (obj_kept env) (obj_all rs) (obj_all (fst (update_local_checkouts env rs))).
Proof.
  pose proof (update_local_checkouts_all env rs) as H.
  destruct (update_local_checkouts env rs) as [rs' e]. simpl.
  pose proof (update_list_kept env (obj_all rs)) as K. now rewrite H in K.
Qed.

Lemma remove_newlines_app a b : remove_newlines (a ++ b) = remove_newlines a ++ remove_newlines b.
Proof.
  induction a as [|c t IH]; cbn [remove_newlines append]; [reflexivity|].
  destruct (Ascii.eqb c "010"%char); cbn [append]; now rewrite IH.
Qed.

Lemma remove_newlines_id b :
  existsb (Ascii.eqb "010"%char) (list_ascii_of_string b) = false -> remove_newlines b = b.
Proof.
  induction b as [|c t IH]; cbn [remove_newlines existsb list_ascii_of_string]; [reflexivity|].
  intros H. apply orb_false_iff in H. destruct H as [H1 H2].
  rewrite Ascii.eqb_sym, H1. now rewrite IH.
Qed.

(** A repository without [local_basepath] whose checkout sits next to the
    working directory is switched to it: whatever the first five characters
    of [.git/HEAD] are, the rest of the line becomes its branch (for
    ["ref: refs/heads/b"] the full ref ["refs/heads/b"], not [b]; for a
    detached HEAD the commit id without its first five digits), and the old
    branch is kept as [original_refs]. *)
Theorem update_repo_branch_from_head env r st p b :
  local_basepath r = None ->
  dict_get (name r) (checkouts env) = Some (Some (p ++ b ++ String "010" "")) ->
  String.length p = 5 ->
  existsb (Ascii.eqb "010"%char) (list_ascii_of_string b) = false ->
  update_repo env (r, st) =
  ((mkRepo (title r) (name r) (owner r) b (Some (parent_dir env)) (repo_type r),
    mkRepoStatus (download_source st) true (has_readme st) (has_changelog st)
      (has_staging_docs st) (using_cache st) (Some (branch r))), None).
Proof.
  intros El Ed Hp Hb. unfold update_repo. cbv beta iota zeta. rewrite El, Ed.
  unfold parse_head. replace (String.length "ref: ") with (String.length p) by (rewrite Hp; reflexivity).
  unfold py_slice_from. rewrite string_length_app, Nat.add_comm, Nat.add_sub.
  rewrite substring_app_r, remove_newlines_app, (remove_newlines_id b Hb).
  simpl. rewrite string_app_nil_r. reflexivity.
Qed.

Definition repo_pkg_a_local : Repo :=
  mkRepo "Pkg A" "pkg_a" "pulp" "refs/heads/feature" (Some "/home/dev") (Some "content").

Lemma update_repo_branch_from_head_witness :
  update_repo env_pkg_a (repo_pkg_a, default_status) =
  ((repo_pkg_a_local,
    mkRepoStatus None true true true true false (Some "main")), None).
Proof.
  apply (update_repo_branch_from_head env_pkg_a repo_pkg_a default_status "ref: " "refs/heads/feature");
    reflexivity.
Defined.




(** ** [Repos.from_yaml] *)

Lemma repo_of_entry_ok entry ty r :
  repo_of_entry entry ty = Ok r ->
  dict_get "title" entry = Some (title r) /\ dict_get "name" entry = Some (name r) /\
  repo_type r = Some ty /\ local_basepath r = dict_get "local_basepath" entry.
Proof.
  unfold repo_of_entry.
  destruct (find _ entry) as [[k v]|]; [destruct (String.eqb k "type"); discriminate|].
  destruct (dict_get "title" entry) as [t|], (dict_get "name" entry) as [n|];
    intros H; try discriminate.
  injection H as <-. simpl. auto.
Qed.

(** One entry of a section, read as the repository built from it. *)
Definition entry_read (ty : string) (entry : yaml_entry) (r : Repo) : Prop :=
  dict_get "title" entry = Some (title r) /\ dict_get "name" entry = Some (name r) /\
  repo_type r = Some ty /\ local_basepath r = dict_get "local_basepath" entry.

Lemma repos_of_entries_ok entries ty l :
  repos_of_entries entries ty = Ok l -> Forall2 (entry_read ty) entries l.
Proof.
  revert l. induction entries as [|e more IH]; intros l H; simpl in H.
  - injection H as <-. constructor.
  - destruct (repo_of_entry e ty) as [r|err] eqn:E; simpl in H; [|discriminate].
    destruct (repos_of_entries more ty) as [rs|err] eqn:Em; simpl in H; [|discriminate].
    injection H as <-. constructor; [exact (repo_of_entry_ok _ _ _ E) | exact (IH _ eq_refl)].
Qed.

(** A successful [from_yaml] had all three sections, a non-empty [core]
    list, and builds one repository per entry, in file order, each with the
    title, name and checkout path of its entry and the type of its
    section. *)
Theorem from_yaml_data_ok data rs :
  from_yaml_data data = Ok rs ->
  exists core_e more ce oe,
    dict_get "core" data = Some (core_e :: more) /\
    dict_get "content" data = Some ce /\ dict_get "other" data = Some oe /\
    entry_read "core" core_e (core_repo rs) /\
    Forall2 (entry_read "content") ce (content_repos rs) /\
    Forall2 (entry_read "other") oe (other_repos rs).
Proof.
  unfold from_yaml_data.
  destruct (dict_get "core" data) as [[|core_e more]|]; simpl; try discriminate.
  destruct (repo_of_entry core_e "core") as [c|err] eqn:Ec; simpl; [|discriminate].
  destruct (dict_get "content" data) as [ce|]; simpl; [|discriminate].
  destruct (repos_of_entries ce "content") as [cr|err] eqn:Ect; simpl; [|discriminate].
  destruct (dict_get "other" data) as [oe|]; simpl; [|discriminate].
  destruct (repos_of_entries oe "other") as [orr|err] eqn:Eot; simpl; [|discriminate].
  intros H. injection H as <-.
  exists core_e, more, ce, oe. simpl.
  split; [reflexivity|]. split; [reflexivity|]. split; [reflexivity|].
  split; [exact (repo_of_entry_ok _ _ _ Ec)|].
  split; [exact (repos_of_entries_ok _ _ _ Ect) | exact (repos_of_entries_ok _ _ _ Eot)].
Qed.

Definition yaml_three_sections : list (string * list yaml_entry) :=
  [("core", [[("title", "Pulp Core"); ("name", "pulpcore")]]);
   ("content", [[("title", "Pkg A"); ("name", "pkg_a"); ("local_basepath", "/src")]]);
   ("other", [])].

Lemma from_yaml_data_ok_witness :
  exists core_e more ce oe,
    dict_get "core" yaml_three_sections = Some (core_e :: more) /\
    dict_get "content" yaml_three_sections = Some ce /\
    dict_get "other" yaml_three_sections = Some oe /\
    entry_read "core" core_e (core_repo (mkRepos repo_core [] [])) /\
    Forall2 (entry_read "content") ce
      [mkRepo "Pkg A" "pkg_a" "pulp" "main" (Some "/src") (Some "content")] /\
    Forall2 (entry_read "other") oe [].
Proof.
  apply (from_yaml_data_ok yaml_three_sections
           (mkRepos repo_core [mkRepo "Pkg A" "pkg_a" "pulp" "main" (Some "/src") (Some "content")] [])).
  reflexivity.
Defined.

(** [repos["core"][0]]: entries of [core] after the first one are never
    read, neither checked nor loaded. *)
Theorem from_yaml_data_first_core_only data core_e more :
  dict_get "core" data = Some (core_e :: more) ->
  from_yaml_data data = from_yaml_data (dict_set "core" [core_e] data).
Proof.
  intros H. unfold from_yaml_data.
  rewrite H, dict_get_set_same.
  rewrite (dict_get_set_other "content" "core") by discriminate.
  rewrite (dict_get_set_other "other" "core") by discriminate.
  reflexivity.
Qed.

Definition yaml_two_cores : list (string * list yaml_entry) :=
  [("core", [[("title", "Pulp Core"); ("name", "pulpcore")]; [("bogus", "x")]]);
   ("content", []); ("other", [])].

Lemma from_yaml_data_first_core_only_witness :
  from_yaml_data yaml_two_cores =
  from_yaml_data (dict_set "core" [[("title", "Pulp Core"); ("name", "pulpcore")]] yaml_two_cores).
Proof.
  apply (from_yaml_data_first_core_only yaml_two_cores _ [[("bogus", "x")]]). reflexivity.
Defined.

(** ** The navigation reads only titles and names *)

Definition fmap_result {A B} (f : A -> B) (x : result A) : result B :=
  match x with Ok a => Ok (f a) | Err e => Err e end.

Lemma extend_selected_forget rs acc ts :
  extend_selected (forget_repos rs) (map forget acc) ts =
  fmap_result (map forget) (extend_selected rs acc ts).
Proof.
  revert acc. induction ts as [|t more IH]; intros acc; simpl; [reflexivity|].
  unfold repos_getattr. cbn [core_repo content_repos other_repos forget_repos].
  destruct (String.eqb (t ++ "_repos") "core_repo"); [reflexivity|].
  destruct (String.eqb (t ++ "_repos") "content_repos");
    [simpl; rewrite <- map_app; apply IH|].
  destruct (String.eqb (t ++ "_repos") "other_repos");
    [simpl; rewrite <- map_app; apply IH|].
  destruct (String.eqb (t ++ "_repos") "all").
  { simpl. unfold all. simpl. rewrite <- map_app. change (forget (core_repo rs) :: map forget (content_repos rs ++ other_repos rs))%list
      with (map forget (core_repo rs :: content_repos rs ++ other_repos rs))%list.
    rewrite <- map_app. apply IH. }
  destruct (existsb _ repos_callables); [reflexivity|].
  destruct (existsb _ repos_data_attrs); reflexivity.
Qed.

Lemma select_repos_forget rs ts :
  select_repos (forget_repos rs) ts = fmap_result (map forget) (select_repos rs ts).
Proof.
  assert (Ha : all (forget_repos rs) = map forget (all rs))
    by (unfold all; simpl; now rewrite map_app).
  destruct ts as [[|t more]|]; simpl.
  - now rewrite Ha.
  - exact (extend_selected_forget rs [] (t :: more)).
  - now rewrite Ha.
Qed.

Lemma group_simple_forget fs template_str l nav :
  group_simple fs template_str (map forget l) nav = group_simple fs template_str l nav.
Proof.
  revert nav. induction l as [|r t IH]; intros nav; simpl; [reflexivity|].
  change (format_kwargs (forget r)) with (format_kwargs r).
  destruct (py_format template_str (format_kwargs r)); simpl; [apply IH | reflexivity].
Qed.

Lemma content_loop_forget fs template_str r cts inner :
  content_loop fs template_str (forget r) cts inner = content_loop fs template_str r cts inner.
Proof.
  revert inner. induction cts as [|ct more IH]; intros inner; simpl; [reflexivity|].
  change (content_step fs template_str (forget r) ct inner)
    with (content_step fs template_str r ct inner).
  destruct (content_step fs template_str r ct inner); simpl; [apply IH | reflexivity].
Qed.

Lemma group_expand_forget fs template_str cts l nav :
  group_expand fs template_str cts (map forget l) nav = group_expand fs template_str cts l nav.
Proof.
  revert nav. induction l as [|r t IH]; intros nav; simpl; [reflexivity|].
  rewrite content_loop_forget.
  destruct (content_loop fs template_str r cts []); simpl; [apply IH | reflexivity].
Qed.

Lemma repo_grouping_forget fs rs template_str repo_types content_types :
  repo_grouping fs (forget_repos rs) template_str repo_types content_types =
  repo_grouping fs rs template_str repo_types content_types.
Proof.
  unfold repo_grouping. rewrite select_repos_forget.
  destruct (select_repos rs repo_types) as [sel|e]; simpl; [|reflexivity].
  destruct (str_contains template_str "{content}"); simpl;
    [rewrite group_expand_forget | rewrite group_simple_forget]; reflexivity.
Qed.

Lemma repo_reference_grouping_forget fs rs :
  repo_reference_grouping fs (forget_repos rs) = repo_reference_grouping fs rs.
Proof.
  unfold repo_reference_grouping.
  replace (all (forget_repos rs)) with (map forget (all rs))
    by (unfold all; simpl; now rewrite map_app).
  generalize (@nil (string * pyval)). induction (all rs) as [|r t IH]; intros nav; simpl;
    [reflexivity|].
  change (reference_section fs (forget r)) with (reference_section fs r).
  change (title (forget r)) with (title r). apply IH.
Qed.

(** [grouped_by_persona] reads only the titles and names of the
    repositories (and which field each one is in): two collections that
    agree on those give the same navigation. *)
Theorem grouped_by_persona_titles_names fs rs1 rs2 :
  forget_repos rs1 = forget_repos rs2 ->
  grouped_by_persona fs rs1 = grouped_by_persona fs rs2.
Proof.
  intros H. unfold grouped_by_persona.
  rewrite <- (repo_grouping_forget fs rs1), <- (repo_grouping_forget fs rs2).
  rewrite <- (repo_grouping_forget fs rs1), <- (repo_grouping_forget fs rs2).
  rewrite <- (repo_grouping_forget fs rs1), <- (repo_grouping_forget fs rs2).
  rewrite <- (repo_grouping_forget fs rs1), <- (repo_grouping_forget fs rs2).
  rewrite <- (repo_grouping_forget fs rs1), <- (repo_grouping_forget fs rs2).
  rewrite <- (repo_grouping_forget fs rs1), <- (repo_grouping_forget fs rs2).
  rewrite <- (repo_reference_grouping_forget fs rs1), <- (repo_reference_grouping_forget fs rs2).
  now rewrite H.
Qed.

Definition repos_pkg_a_local : Repos := mkRepos repo_core [repo_pkg_a_local] [].

Lemma grouped_by_persona_titles_names_witness :
  grouped_by_persona fs_tutorials_quickstart repos_core_pkg_a =
  grouped_by_persona fs_tutorials_quickstart repos_pkg_a_local.
Proof.
  apply (grouped_by_persona_titles_names fs_tutorials_quickstart repos_core_pkg_a repos_pkg_a_local).
  reflexivity.
Defined.

Lemma obj_kept_forget env o o' : obj_kept env o o' -> forget (fst o') = forget (fst o).
Proof. intros [Ht [Hn _]]. unfold forget. now rewrite Ht, Hn. Qed.

Lemma kept_map_forget env l l' :
  Forall2 (obj_kept env) l l' -> map (fun o => forget (fst o)) l' = map (fun o => forget (fst o)) l.
Proof.
  induction 1 as [|o o' t t' Ho _ IH]; simpl; [reflexivity|].
  rewrite IH. f_equal. exact (obj_kept_forget _ _ _ Ho).
Qed.

(** Switching repositories to local checkouts, completely or up to an
    exception, leaves the navigation [grouped_by_persona] builds from a given
    documentation tree unchanged. *)
Theorem update_local_checkouts_navigation env rs fs :
  grouped_by_persona fs (objs_repos (fst (update_local_checkouts env rs))) =
  grouped_by_persona fs (objs_repos rs).
Proof.
  apply grouped_by_persona_titles_names.
  destruct rs as [c ct ot]. unfold update_local_checkouts, objs_repos, forget_repos. simpl.
  pose proof (update_repo_kept env c) as Kc.
  pose proof (update_list_kept env ct) as Kct.
  pose proof (update_list_kept env ot) as Kot.
  destruct (update_repo env c) as [c' e1]. simpl in Kc.
  pose proof (kept_map_forget _ _ _ Kct) as Mct. pose proof (kept_map_forget _ _ _ Kot) as Mot.
  rewrite !map_map in *.
  destruct e1 as [e|]; simpl.
  { rewrite (obj_kept_forget _ _ _ Kc). reflexivity. }
  destruct (update_list env ct) as [ct' e2]. simpl in Mct.
  destruct e2 as [e|]; simpl.
  { rewrite (obj_kept_forget _ _ _ Kc), Mct. reflexivity. }
  destruct (update_list env ot) as [ot' e3]. simpl in Mot. simpl.
  rewrite (obj_kept_forget _ _ _ Kc), Mct, Mot. reflexivity.
Qed.
